(** * Shallow embedding of the lab3 fuzzy inference engine

    Sources: [src/lab3/fuzzy_json_parser.py] (membership functions, fuzzy
    sets, fuzzy variables, rules, the JSON parser) and
    [src/lab3/fuzzy_inference_engine.py] (rule truth evaluation, the
    composition and truth-level mechanisms, aggregation, defuzzification).

    Python floats are modelled as exact rationals [Q]; a numpy array is a
    [list Q]; a Python [dict] with string keys is a stdpp [gmap string _],
    except where iteration order matters (rule conditions), where it is an
    association list in insertion order. *)

From Stdlib Require Import QArith Qabs Lia Lqa.
From stdpp Require Import base list gmap strings.

Open Scope Q_scope.

(** ** Python scalar helpers *)

Definition Qlt_bool (x y : Q) : bool := negb (Qle_bool y x).

(** Python's builtin [min(a, b)]: keeps [a] unless [b < a]. *)
Definition qmin (a b : Q) : Q := if Qlt_bool b a then b else a.

(** Python's builtin [max(a, b)]: keeps [a] unless [b > a]. *)
Definition qmax (a b : Q) : Q := if Qlt_bool a b then b else a.

(** Python's [/] on floats: raises [ZeroDivisionError] (here [None]) on a
    zero denominator. *)
Definition qdiv (n d : Q) : option Q :=
  if Qeq_bool d 0 then None else Some (n / d).

(** ** Membership functions ([fuzzy_json_parser.py], lines 13-57) *)

Inductive MembershipFunction :=
| TriangularMF (a b c : Q)
| TrapezoidalMF (a b c d : Q).

(** [TriangularMF.__call__]; [None] stands for a raised
    [ZeroDivisionError]. *)
Definition triangular_call (a b c x : Q) : option Q :=
  if Qle_bool x a || Qle_bool c x then Some 0
  else if Qlt_bool a x && Qlt_bool x b then
    (if negb (Qeq_bool b a) then qdiv (x - a) (b - a) else Some 0)
  else if Qle_bool b x && Qle_bool x c then
    (if negb (Qeq_bool c b) then qdiv (c - x) (c - b) else Some 0)
  else Some 0.

(** [TrapezoidalMF.__call__]. *)
Definition trapezoidal_call (a b c d x : Q) : option Q :=
  if Qle_bool x a || Qle_bool d x then Some 0
  else if Qlt_bool a x && Qlt_bool x b then
    (if negb (Qeq_bool b a) then qdiv (x - a) (b - a) else Some 0)
  else if Qle_bool b x && Qle_bool x c then Some 1
  else if Qlt_bool c x && Qlt_bool x d then
    (if negb (Qeq_bool d c) then qdiv (d - x) (d - c) else Some 0)
  else Some 0.

Definition mf_call (mf : MembershipFunction) (x : Q) : option Q :=
  match mf with
  | TriangularMF a b c => triangular_call a b c x
  | TrapezoidalMF a b c d => trapezoidal_call a b c d x
  end.

(** ** Fuzzy sets, variables and rules ([fuzzy_json_parser.py], 63-138) *)

Record FuzzySet := { fs_name : string; mf : MembershipFunction }.

(** [FuzzySet.membership] returns [self.mf(x)]. The exception branch is
    never taken: [mf_call] always succeeds (lemma [mf_call_defined]). *)
Definition membership (fs : FuzzySet) (x : Q) : Q :=
  match mf_call (mf fs) x with Some v => v | None => 0 end.

(** A [FuzzyVariable] built with a declared range, the only constructor
    call the JSON parser makes ([_parse_variable]: [FuzzyVariable(name,
    min_v, max_v)]); with a finite range the [float('inf')] sentinels of
    [_update_range_from_mf] never occur. *)
Record FuzzyVariable := {
  var_name : string;
  min_val : Q;
  max_val : Q;
  terms : gmap string FuzzySet
}.

Definition new_variable (name : string) (min_v max_v : Q) : FuzzyVariable :=
  {| var_name := name; min_val := min_v; max_val := max_v; terms := ∅ |}.

Definition mf_params (m : MembershipFunction) : list Q :=
  match m with
  | TriangularMF a b c => [a; b; c]
  | TrapezoidalMF a b c d => [a; b; c; d]
  end.

(** Python's [min(list)] / [max(list)] on a non-empty list. *)
Definition list_min (l : list Q) : Q :=
  match l with [] => 0 | h :: t => fold_left qmin t h end.
Definition list_max (l : list Q) : Q :=
  match l with [] => 0 | h :: t => fold_left qmax t h end.

(** [FuzzyVariable._update_range_from_mf]. *)
Definition update_range_from_mf (v : FuzzyVariable) (m : MembershipFunction)
  : FuzzyVariable :=
  let params := mf_params m in
  let lo := list_min params in
  let hi := list_max params in
  let v1 := if Qlt_bool lo (min_val v)
            then {| var_name := var_name v; min_val := lo;
                    max_val := max_val v; terms := terms v |}
            else v in
  if Qlt_bool (max_val v1) hi
  then {| var_name := var_name v1; min_val := min_val v1;
          max_val := hi; terms := terms v1 |}
  else v1.

(** [FuzzyVariable.add_term]. *)
Definition add_term (v : FuzzyVariable) (term_name : string)
  (m : MembershipFunction) : FuzzyVariable :=
  let v1 := {| var_name := var_name v; min_val := min_val v;
               max_val := max_val v;
               terms := <[term_name := {| fs_name := term_name; mf := m |}]>
                        (terms v) |} in
  update_range_from_mf v1 m.

(** [JSONFuzzyModelParser._parse_variable], with the terms given in JSON
    order as the membership functions [_create_mf] built for them. *)
Definition parse_variable (name : string) (min_v max_v : Q)
  (term_defs : list (string * MembershipFunction)) : FuzzyVariable :=
  fold_left (fun v '(tn, m) => add_term v tn m) term_defs
    (new_variable name min_v max_v).

(** [FuzzyRule]: the [conditions] dict in insertion order. *)
Record FuzzyRule := {
  conditions : list (string * string);
  result_var : string;
  result_term : string
}.

(** ** The inference engine ([fuzzy_inference_engine.py]) *)

Inductive ImplicationType := MAMDANI | LARSEN.
Inductive AggregationType := MAX | SUM | PROBOR.
Inductive CompositionType := MAX_MIN | MAX_PROD.

(** The one exception the engine raises itself. *)
Inductive PyError := ValueError.

Record FuzzyInferenceEngine := {
  rules : list FuzzyRule;
  variables : gmap string FuzzyVariable;
  condition_resolution_arg : nat
}.

(** [__init__]: [self.condition_resolution = max(51, condition_resolution)]. *)
Definition condition_resolution (e : FuzzyInferenceEngine) : nat :=
  Nat.max 51 (condition_resolution_arg e).

Definition Q_of_nat (n : nat) : Q := inject_Z (Z.of_nat n).

(** [np.linspace(start, stop, num)]: [arange(0, num) * step + start] with
    [step = (stop - start) / (num - 1)], and the last point set to [stop]. *)
Definition linspace (start stop : Q) (num : nat) : list Q :=
  match num with
  | O => []
  | S O => [start]
  | S m =>
      let step := (stop - start) / Q_of_nat m in
      map (fun i => Q_of_nat i * step + start) (seq 0 m) ++ [stop]
  end.

(** Element-wise numpy operations on arrays of equal length. *)
Definition np_minimum (u v : list Q) : list Q := zip_with qmin u v.
Definition np_maximum (u v : list Q) : list Q := zip_with qmax u v.
Definition np_zeros (n : nat) : list Q := repeat 0 n.

(** [_build_input_membership]: the fuzzified singleton A'(x) on the
    condition grid. *)
Definition build_input_membership (e : FuzzyInferenceEngine)
  (var : FuzzyVariable) (value : Q) : list Q * list Q :=
  let cr := condition_resolution e in
  let x_range := linspace (min_val var) (max_val var) cr in
  let span := if Qeq_bool (max_val var - min_val var) 0 then 1
              else max_val var - min_val var in
  let half_width := span / Q_of_nat (Nat.max (Nat.div cr 2) 1) in
  let membership :=
    map (fun x => qmax (1 - Qabs (x - value) / half_width) 0) x_range in
  (x_range, membership).

(** The truth of one condition whose variable and term are known: the
    height of [np.minimum(input_mf, term_membership)] (lines 111-114). *)
Definition condition_truth (e : FuzzyInferenceEngine) (var : FuzzyVariable)
  (fs : FuzzySet) (value : Q) : Q :=
  let '(x_range, input_mf) := build_input_membership e var value in
  let term_membership := map (membership fs) x_range in
  list_max (np_minimum input_mf term_membership).

(** [_evaluate_rule_conditions]: the loop over [rule.conditions.items()]
    with its accumulator [truth_levels]. *)
Fixpoint eval_conditions (e : FuzzyInferenceEngine) (inputs : gmap string Q)
  (conds : list (string * string)) (truth_levels : list Q) : Q :=
  match conds with
  | [] => match truth_levels with [] => 0 | _ => list_min truth_levels end
  | (var_name, term_name) :: rest =>
      match inputs !! var_name with
      | None => 0
      | Some value =>
          match variables e !! var_name with
          | None => 0
          | Some var =>
              match terms var !! term_name with
              | None => eval_conditions e inputs rest (truth_levels ++ [0])
              | Some fs =>
                  eval_conditions e inputs rest
                    (truth_levels ++ [condition_truth e var fs value])
              end
          end
      end
  end.

Definition evaluate_rule_conditions (e : FuzzyInferenceEngine)
  (rule : FuzzyRule) (inputs : gmap string Q) : Q :=
  eval_conditions e inputs (conditions rule) [].

(** [_implication]. *)
Definition implication (a b : Q) (impl_type : ImplicationType) : Q :=
  match impl_type with
  | MAMDANI => qmin a b
  | LARSEN => a * b
  end.

(** [_aggregate] on scalars. *)
Definition aggregate (values : list Q) (agg_type : AggregationType) : Q :=
  match values with
  | [] => 0
  | v0 :: vs =>
      match agg_type with
      | MAX => list_max values
      | SUM => qmin 1 (fold_left Qplus values 0)
      | PROBOR => qmin 1 (fold_left (fun r v => r + v - r * v) vs v0)
      end
  end.

(** The pointwise aggregation step shared by both mechanisms (lines
    222-231 and 304-310). *)
Definition aggregate_curves (agg_type : AggregationType)
  (output_mf rule_output : list Q) : list Q :=
  match agg_type with
  | MAX => np_maximum output_mf rule_output
  | SUM => map (qmin 1) (zip_with Qplus output_mf rule_output)
  | PROBOR => map (qmin 1)
                (zip_with (fun o r => o + r - o * r) output_mf rule_output)
  end.

(** One pass of the rule loop of [inference_truth_level] (lines 282-310). *)
Definition truth_level_step (e : FuzzyInferenceEngine) (inputs : gmap string Q)
  (output_var : string) (output_variable : FuzzyVariable) (x_range : list Q)
  (impl_type : ImplicationType) (agg_type : AggregationType)
  (output_mf : list Q) (rule : FuzzyRule) : list Q :=
  if decide (result_var rule <> output_var) then output_mf else
  let truth_level := evaluate_rule_conditions e rule inputs in
  if Qeq_bool truth_level 0 then output_mf else
  match terms output_variable !! result_term rule with
  | None => output_mf
  | Some result_term_mf =>
      let term_membership := map (membership result_term_mf) x_range in
      let rule_output :=
        map (fun m => implication truth_level m impl_type) term_membership in
      aggregate_curves agg_type output_mf rule_output
  end.

(** [inference_truth_level]: returns [(output_mf, x_range)]. *)
Definition inference_truth_level (e : FuzzyInferenceEngine)
  (inputs : gmap string Q) (output_var : string)
  (impl_type : ImplicationType) (agg_type : AggregationType)
  (resolution : nat) : PyError + (list Q * list Q) :=
  match variables e !! output_var with
  | None => inl ValueError
  | Some output_variable =>
      let x_range :=
        linspace (min_val output_variable) (max_val output_variable) resolution in
      let output_mf :=
        fold_left (truth_level_step e inputs output_var output_variable x_range
                     impl_type agg_type) (rules e) (np_zeros resolution) in
      inr (output_mf, x_range)
  end.

(** One pass of the rule loop of [inference_composition] (lines 166-231). *)
Definition composition_step (e : FuzzyInferenceEngine) (inputs : gmap string Q)
  (output_var : string) (output_variable : FuzzyVariable) (x_range : list Q)
  (comp_type : CompositionType) (impl_type : ImplicationType)
  (agg_type : AggregationType) (output_mf : list Q) (rule : FuzzyRule)
  : list Q :=
  if decide (result_var rule <> output_var) then output_mf else
  let truth_level := evaluate_rule_conditions e rule inputs in
  if Qeq_bool truth_level 0 then output_mf else
  match terms output_variable !! result_term rule with
  | None => output_mf
  | Some result_term_mf =>
      let term_membership := map (membership result_term_mf) x_range in
      let fuzzy_relation :=
        match impl_type with
        | MAMDANI => map (qmin truth_level) term_membership
        | LARSEN => map (Qmult truth_level) term_membership
        end in
      let rule_output :=
        match comp_type with
        | MAX_MIN =>
            match impl_type with
            | MAMDANI => fuzzy_relation
            | LARSEN => map (qmin truth_level) term_membership
            end
        | MAX_PROD =>
            match impl_type with
            | LARSEN => fuzzy_relation
            | MAMDANI => map (Qmult truth_level) term_membership
            end
        end in
      aggregate_curves agg_type output_mf rule_output
  end.

(** [inference_composition]: returns [(output_mf, x_range)]. *)
Definition inference_composition (e : FuzzyInferenceEngine)
  (inputs : gmap string Q) (output_var : string)
  (comp_type : CompositionType) (impl_type : ImplicationType)
  (agg_type : AggregationType) (resolution : nat)
  : PyError + (list Q * list Q) :=
  match variables e !! output_var with
  | None => inl ValueError
  | Some output_variable =>
      let x_range :=
        linspace (min_val output_variable) (max_val output_variable) resolution in
      let output_mf :=
        fold_left (composition_step e inputs output_var output_variable x_range
                     comp_type impl_type agg_type) (rules e) (np_zeros resolution) in
      inr (output_mf, x_range)
  end.

(** ** Defuzzification (lines 314-353) *)

(** [np.sum]; [Qred] only normalises the rational's representation. *)
Definition np_sum (l : list Q) : Q := fold_left (fun s v => Qred (s + v)) l 0.

(** [np.mean]. *)
Definition np_mean (l : list Q) : Q := np_sum l / Q_of_nat (length l).

(** [np.cumsum]. *)
Fixpoint cumsum_from (acc : Q) (l : list Q) : list Q :=
  match l with
  | [] => []
  | v :: t => let s := Qred (acc + v) in s :: cumsum_from s t
  end.
Definition np_cumsum (l : list Q) : list Q := cumsum_from 0 l.

(** [np.searchsorted(a, v)] (side='left') on a sorted array: the first
    index [i] with [v <= a[i]], or [len(a)] when there is none. The
    cumulative sums it is applied to are sorted (the curves are
    non-negative), where numpy's binary search returns this index. *)
Fixpoint searchsorted (a : list Q) (v : Q) : nat :=
  match a with
  | [] => 0
  | h :: t => if Qle_bool v h then 0 else S (searchsorted t v)
  end.

Definition defuzzify_centroid (membership : list Q) (x_range : list Q) : Q :=
  if Qeq_bool (np_sum membership) 0 then np_mean x_range
  else np_sum (zip_with Qmult x_range membership) / np_sum membership.

Definition defuzzify_bisector (membership : list Q) (x_range : list Q) : Q :=
  let total_area := np_sum membership in
  if Qeq_bool total_area 0 then np_mean x_range else
  let cumulative := np_cumsum membership in
  let half_area := total_area / 2 in
  let idx := searchsorted cumulative half_area in
  let idx := if Nat.leb (length x_range) idx then (length x_range - 1)%nat else idx in
  nth idx x_range 0.

Definition defuzzify_mom (membership : list Q) (x_range : list Q) : Q :=
  let max_val := list_max membership in
  if Qeq_bool max_val 0 then np_mean x_range else
  np_mean (map fst (List.filter (fun p => Qeq_bool (snd p) max_val)
                      (combine x_range membership))).

(** The same engine over another rule list. *)
Definition with_rules (e : FuzzyInferenceEngine) (rs : list FuzzyRule)
  : FuzzyInferenceEngine :=
  {| rules := rs; variables := variables e;
     condition_resolution_arg := condition_resolution_arg e |}.

(** ** The end-to-end model of the specification's examples *)

Definition amount_var : FuzzyVariable :=
  parse_variable "amount" 0 6
    [("low", TriangularMF 0 0 3); ("high", TriangularMF 3 6 6)].

Definition power_var : FuzzyVariable :=
  parse_variable "power" 0 100 [("full", TriangularMF 0 50 100)].

Definition amount_rule : FuzzyRule :=
  {| conditions := [("amount", "high")]; result_var := "power";
     result_term := "full" |}.

(** [FuzzyInferenceEngine(rules, variables)] with the default
    [condition_resolution = 201]. *)
Definition amount_engine : FuzzyInferenceEngine :=
  {| rules := [amount_rule];
     variables := <["amount" := amount_var]> (<["power" := power_var]> ∅);
     condition_resolution_arg := 201 |}.

Definition amount_inputs (v : Q) : gmap string Q := <["amount" := v]> ∅.

(** A single-input model: variable [v] on [0,10] with the term
    [t = Triangular(0,5,10)]. *)
Definition tri_var : FuzzyVariable :=
  parse_variable "v" 0 10 [("t", TriangularMF 0 5 10)].

Definition tri_rule : FuzzyRule :=
  {| conditions := [("v", "t")]; result_var := "v"; result_term := "t" |}.

Definition tri_engine : FuzzyInferenceEngine :=
  {| rules := [tri_rule]; variables := <["v" := tri_var]> ∅;
     condition_resolution_arg := 201 |}.

(** ** The relational composition of the specification (section 4.5-B)

    Not code of the repository: the rule output the specification asks
    for, [B'(y) = max_x combine(A'(x), R(x,y))] with
    [R(x,y) = implication(mu_A(x), mu_B(y))] over the condition grid of the
    rule's (first) condition variable and the output grid [x_out], and the
    fuzzified singleton [A'] of [_build_input_membership]. *)
Definition spec_relational_rule_output (e : FuzzyInferenceEngine)
  (inputs : gmap string Q) (rule : FuzzyRule)
  (output_variable : FuzzyVariable) (x_out : list Q)
  (comp_type : CompositionType) (impl_type : ImplicationType)
  : option (list Q) :=
  match conditions rule with
  | [] => None
  | (v, t) :: _ =>
      match inputs !! v, variables e !! v with
      | Some value, Some var =>
          match terms var !! t, terms output_variable !! result_term rule with
          | Some fsA, Some fsB =>
              let '(x_in, a') := build_input_membership e var value in
              let muA := map (membership fsA) x_in in
              let muB := map (membership fsB) x_out in
              let R := map (fun ma => map (fun mb => implication ma mb impl_type)
                                         muB) muA in
              let combine := match comp_type with
                             | MAX_MIN => qmin | MAX_PROD => Qmult end in
              Some (map (fun j => list_max
                           (zip_with (fun a row => combine a (nth j row 0)) a' R))
                      (seq 0 (length x_out)))
          | _, _ => None
          end
      | _, _ => None
      end
  end.

(** ** Auxiliary definitions for the statements *)

(** The implication whose clipping the composition mechanism applies. *)
Definition implication_of_composition (comp_type : CompositionType)
  : ImplicationType :=
  match comp_type with MAX_MIN => MAMDANI | MAX_PROD => LARSEN end.

(** A condition whose variable is missing from the inputs, or whose
    variable or term is unknown. *)
Definition unknown_condition (e : FuzzyInferenceEngine) (inputs : gmap string Q)
  (c : string * string) : Prop :=
  inputs !! c.1 = None \/ variables e !! c.1 = None \/
  exists var, variables e !! c.1 = Some var /\ terms var !! c.2 = None.

(** The per-condition truths of a rule whose conditions are all known:
    [tv] is the height of the fuzzified input against the term. *)
Definition condition_truth_of (e : FuzzyInferenceEngine)
  (inputs : gmap string Q) (c : string * string) (tv : Q) : Prop :=
  exists value var fs,
    inputs !! c.1 = Some value /\ variables e !! c.1 = Some var /\
    terms var !! c.2 = Some fs /\ tv = condition_truth e var fs value.

Fixpoint qsum (l : list Q) : Q :=
  match l with [] => 0 | h :: t => h + qsum t end.

(** ** Further operations of the parser and engine *)

(** [FuzzyVariable.get_membership]. *)
Definition get_membership (v : FuzzyVariable) (term_name : string) (x : Q) : Q :=
  match terms v !! term_name with
  | None => 0
  | Some fs => membership fs x
  end.

(** [FuzzyVariable.fuzzify]: [{term: self.get_membership(term, x) for term
    in self.terms}]. *)
Definition fuzzify (v : FuzzyVariable) (x : Q) : gmap string Q :=
  map_imap (fun t _ => Some (get_membership v t x)) (terms v).



(** Exceptions of the JSON parser. *)
Inductive ParseError := ParseValueError | ParseIndexError.


(** A JSON rule object: its ["if"] and ["then"] objects in key order. *)
Record JsonRule := { if_block : list (string * string);
                     then_block : list (string * string) }.

(** [JSONFuzzyModelParser._parse_rules]: [list(then_block.items())[0]]
    raises [IndexError] on an empty ["then"] object, which aborts parsing. *)
Fixpoint parse_rules (rules_json : list JsonRule)
  : ParseError + list FuzzyRule :=
  match rules_json with
  | [] => inr []
  | rule :: rest =>
      match then_block rule with
      | [] => inl ParseIndexError
      | (res_var, res_term) :: _ =>
          match parse_rules rest with
          | inl err => inl err
          | inr rs => inr ({| conditions := if_block rule; result_var := res_var;
                              result_term := res_term |} :: rs)
          end
      end
  end.

(** [FuzzyInferenceEngine.get_rule_truth_levels]: [output_var] is
    [Optional[str]]; [if output_var and rule.result_var != output_var]
    skips a rule only for a non-empty [output_var]. *)
Fixpoint rule_truth_levels_loop (e : FuzzyInferenceEngine)
  (inputs : gmap string Q) (output_var : option string) (rs : list FuzzyRule)
  : list (FuzzyRule * Q) :=
  match rs with
  | [] => []
  | rule :: rest =>
      let skip := match output_var with
                  | Some o => negb (String.eqb o "") &&
                              negb (String.eqb (result_var rule) o)
                  | None => false
                  end in
      if skip then rule_truth_levels_loop e inputs output_var rest
      else (rule, evaluate_rule_conditions e rule inputs)
             :: rule_truth_levels_loop e inputs output_var rest
  end.

Definition get_rule_truth_levels (e : FuzzyInferenceEngine)
  (inputs : gmap string Q) (output_var : option string)
  : list (FuzzyRule * Q) :=
  rule_truth_levels_loop e inputs output_var (rules e).

(** [MainWindow._compute_output_with_membership] ([src/lab3/main.py]):
    the mechanism is chosen from [len(inputs)] and the combo index, with the
    engine's default [resolution = 1000]; returns [(output, membership,
    x_range)]. *)
Definition compute_output_with_membership (e : FuzzyInferenceEngine)
  (inputs : gmap string Q) (output_var : string) (mechanism_index : nat)
  (impl_type : ImplicationType) (agg_type : AggregationType)
  : PyError + (Q * list Q * list Q) :=
  let num_inputs := size inputs in
  let mechanism_index := if (1 <? num_inputs)%nat then 0%nat else mechanism_index in
  let r :=
    if (num_inputs =? 1)%nat && (mechanism_index =? 0)%nat then
      inference_composition e inputs output_var MAX_MIN impl_type agg_type 1000
    else if (num_inputs =? 1)%nat && (mechanism_index =? 1)%nat then
      inference_composition e inputs output_var MAX_PROD impl_type agg_type 1000
    else inference_truth_level e inputs output_var impl_type agg_type 1000 in
  match r with
  | inl err => inl err
  | inr (membership, x_range) =>
      inr (defuzzify_centroid membership x_range, membership, x_range)
  end.

(** The tail of [_compute_output_with_membership]: an error propagates,
    a curve is returned with its centroid. *)
Definition with_centroid (r : PyError + (list Q * list Q))
  : PyError + (Q * list Q * list Q) :=
  match r with
  | inl err => inl err
  | inr (membership, x_range) =>
      inr (defuzzify_centroid membership x_range, membership, x_range)
  end.

(** The scalar operation of each aggregation in [aggregate_curves]. *)
Definition agg_op (agg : AggregationType) (o r : Q) : Q :=
  match agg with
  | MAX => qmax o r
  | SUM => qmin 1 (o + r)
  | PROBOR => qmin 1 (o + r - o * r)
  end.

(** Two results of a mechanism agree: the same error, or the same grid and
    curves equal point by point (as rationals). *)
Definition curve_equiv (r r' : PyError + (list Q * list Q)) : Prop :=
  match r, r' with
  | inr (mf, xr), inr (mf', xr') => Forall2 Qeq mf mf' /\ xr = xr'
  | inl e1, inl e2 => e1 = e2
  | _, _ => False
  end.

(** * Proofs *)

(** ** Boolean comparisons on [Q] *)

Lemma Qle_bool_false x y : Qle_bool x y = false -> y < x.
Proof.
  intros H. apply Qnot_le_lt. intros Hle. apply Qle_bool_iff in Hle. congruence.
Qed.

Lemma Qeq_bool_false x y : Qeq_bool x y = false -> ~ x == y.
Proof. intros H Heq. apply Qeq_bool_iff in Heq. congruence. Qed.

(** Split every comparison in the goal and turn it into a hypothesis on [Q]. *)
Ltac q_cases :=
  unfold Qlt_bool in *;
  repeat match goal with
    | |- context [Qle_bool ?x ?y] =>
        let H := fresh "Hc" in destruct (Qle_bool x y) eqn:H;
        [apply Qle_bool_iff in H | apply Qle_bool_false in H]
    | |- context [Qeq_bool ?x ?y] =>
        let H := fresh "Hc" in destruct (Qeq_bool x y) eqn:H;
        [apply Qeq_bool_iff in H | apply Qeq_bool_false in H]
    end; simpl.

Lemma qdiv_unit n d :
  0 <= n -> n <= d -> ~ d == 0 -> exists v, qdiv n d = Some v /\ 0 <= v <= 1.
Proof.
  intros Hn Hnd Hd. unfold qdiv.
  destruct (Qeq_bool d 0) eqn:E.
  - apply Qeq_bool_iff in E. contradiction.
  - eexists; split; [reflexivity|].
    assert (Hpos : 0 < d) by lra.
    split.
    + apply Qle_shift_div_l; [exact Hpos | lra].
    + apply Qle_shift_div_r; [exact Hpos | lra].
Qed.

Lemma qdiv_below_one n d :
  0 <= n -> n < d -> exists v, qdiv n d = Some v /\ v < 1.
Proof.
  intros Hn Hnd. unfold qdiv.
  destruct (Qeq_bool d 0) eqn:E.
  - apply Qeq_bool_iff in E. lra.
  - eexists; split; [reflexivity|].
    apply Qlt_shift_div_r; lra.
Qed.

Lemma triangular_call_unit a b c x :
  exists v, triangular_call a b c x = Some v /\ 0 <= v <= 1.
Proof.
  unfold triangular_call. q_cases;
    first [ exists 0; split; [reflexivity | lra]
          | exists 1; split; [reflexivity | lra]
          | exfalso; lra
          | apply qdiv_unit; lra ].
Qed.

Lemma trapezoidal_call_unit a b c d x :
  exists v, trapezoidal_call a b c d x = Some v /\ 0 <= v <= 1.
Proof.
  unfold trapezoidal_call. q_cases;
    first [ exists 0; split; [reflexivity | lra]
          | exists 1; split; [reflexivity | lra]
          | exfalso; lra
          | apply qdiv_unit; lra ].
Qed.

(** Every membership function is total (no [ZeroDivisionError]) with
    values in [0,1]. *)
Lemma mf_call_defined m x : exists v, mf_call m x = Some v /\ 0 <= v <= 1.
Proof.
  destruct m; simpl; [apply triangular_call_unit | apply trapezoidal_call_unit].
Qed.

Lemma membership_spec fs x : mf_call (mf fs) x = Some (membership fs x).
Proof.
  unfold membership. destruct (mf_call_defined (mf fs) x) as (v & -> & _).
  reflexivity.
Qed.

Lemma membership_unit fs x : 0 <= membership fs x <= 1.
Proof.
  unfold membership. destruct (mf_call_defined (mf fs) x) as (v & -> & Hv).
  exact Hv.
Qed.

(** ** Membership functions *)

(** Claim C4: triangular and trapezoidal evaluation never divides by zero
    (it always returns a value, for any parameters, so in particular for
    [a <= b <= c] and [a <= b <= c <= d]), the value lies in [0,1], and a
    degenerate shoulder ([a == b], or [b == c] resp. [c == d]) is an
    immediate step to 0 on that side. *)
Theorem mf_eval_total_unit_interval :
  (forall a b c x,
     exists v, mf_call (TriangularMF a b c) x = Some v /\ 0 <= v <= 1)
  /\ (forall a b c d x,
     exists v, mf_call (TrapezoidalMF a b c d) x = Some v /\ 0 <= v <= 1)
  /\ (forall a b c x, a == b -> x <= b ->
        mf_call (TriangularMF a b c) x = Some 0)
  /\ (forall a b c x, b == c -> b <= x ->
        mf_call (TriangularMF a b c) x = Some 0)
  /\ (forall a b c d x, a == b -> x <= b ->
        mf_call (TrapezoidalMF a b c d) x = Some 0)
  /\ (forall a b c d x, c == d -> c < x ->
        mf_call (TrapezoidalMF a b c d) x = Some 0).
Proof.
  split; [intros; apply triangular_call_unit|].
  split; [intros; apply trapezoidal_call_unit|].
  repeat split; intros * Heq Hx; simpl;
    [unfold triangular_call | unfold triangular_call
    | unfold trapezoidal_call | unfold trapezoidal_call];
    q_cases; first [reflexivity | exfalso; lra].
Qed.

(** Claim C10: a degenerate triangle ([a == b] or [b == c]) never reaches
    the value 1; in particular [Triangular(3,6,6)] is 0 at 6. *)
Theorem triangular_degenerate_below_one a b c
  (Hdeg : a == b \/ b == c) :
  (forall x, exists v, mf_call (TriangularMF a b c) x = Some v /\ v < 1)
  /\ mf_call (TriangularMF 3 6 6) 6 = Some 0.
Proof.
  split; [|reflexivity].
  intros x. simpl. unfold triangular_call.
  q_cases;
    first [ exists 0; split; [reflexivity | lra]
          | exfalso; lra
          | apply qdiv_below_one; lra ].
Qed.

Lemma triangular_degenerate_below_one_witness :
  (3 == 6 \/ 6 == 6) /\
  ((forall x, exists v, mf_call (TriangularMF 3 6 6) x = Some v /\ v < 1)
   /\ mf_call (TriangularMF 3 6 6) 6 = Some 0).
Proof.
  split; [right; reflexivity|].
  apply (triangular_degenerate_below_one 3 6 6). right; reflexivity.
Defined.

(** ** The two mechanisms *)

Lemma fold_left_ext_pointwise {A B} (f g : A -> B -> A) (l : list B) (a : A) :
  (forall acc b, f acc b = g acc b) -> fold_left f l a = fold_left g l a.
Proof.
  intros Hfg. revert a. induction l as [|b l IH]; intros a; simpl; [done|].
  rewrite Hfg. apply IH.
Qed.

Lemma composition_step_truth_level_step e inputs out ov xr comp impl agg :
  forall acc rule,
    composition_step e inputs out ov xr comp impl agg acc rule =
    truth_level_step e inputs out ov xr (implication_of_composition comp)
      agg acc rule.
Proof.
  intros acc rule. unfold composition_step, truth_level_step.
  destruct (decide _); [done|].
  destruct (Qeq_bool _ 0); [done|].
  destruct (terms ov !! result_term rule); [|done].
  f_equal. destruct comp, impl; reflexivity.
Qed.

Lemma composition_truth_level e inputs output_var comp_type impl_type
  agg_type resolution :
  inference_composition e inputs output_var comp_type impl_type agg_type
    resolution =
  inference_truth_level e inputs output_var
    (implication_of_composition comp_type) agg_type resolution.
Proof.
  unfold inference_composition, inference_truth_level.
  destruct (variables e !! output_var) as [ov|]; [|done].
  do 2 f_equal. apply fold_left_ext_pointwise.
  apply composition_step_truth_level_step.
Qed.

(** Claim C1 (as amended): [inference_composition] builds no x-by-y
    relation; for every implication type its output is the output of the
    truth-level mechanism with clipping by [min] (max-min composition)
    or scaling by the product (max-product composition). *)
Theorem composition_equals_truth_level_clipping e inputs output_var
  comp_type impl_type agg_type resolution :
  inference_composition e inputs output_var comp_type impl_type agg_type
    resolution =
  inference_truth_level e inputs output_var
    (implication_of_composition comp_type) agg_type resolution.
Proof. apply composition_truth_level. Qed.

(** Claim C8: both mechanisms raise [ValueError] exactly when the output
    variable is unknown; the check precedes every other computation, and a
    known output variable always yields a curve and its grid. *)
Theorem unknown_output_variable_error e inputs output_var :
  (variables e !! output_var = None ->
     (forall impl agg res,
        inference_truth_level e inputs output_var impl agg res = inl ValueError)
     /\ (forall comp impl agg res,
        inference_composition e inputs output_var comp impl agg res
          = inl ValueError))
  /\ (forall v, variables e !! output_var = Some v ->
     (forall impl agg res, exists mf xr,
        inference_truth_level e inputs output_var impl agg res = inr (mf, xr))
     /\ (forall comp impl agg res, exists mf xr,
        inference_composition e inputs output_var comp impl agg res
          = inr (mf, xr))).
Proof.
  unfold inference_truth_level, inference_composition. split.
  - intros ->. split; intros; reflexivity.
  - intros v ->. split; intros; eauto.
Qed.

(** ** Aggregation stays at most 1 for SUM and PROBOR *)

Lemma qmin_one_le x : qmin 1 x <= 1.
Proof. unfold qmin. q_cases; lra. Qed.

Lemma aggregate_curves_le_one agg o r :
  agg <> MAX -> Forall (fun v => v <= 1) (aggregate_curves agg o r).
Proof.
  intros Hagg. destruct agg; [done| |]; simpl;
    apply List.Forall_map, List.Forall_forall; intros; apply qmin_one_le.
Qed.

Lemma fold_steps_le_one {B} (step : list Q -> B -> list Q) agg
  (Hstep : forall acc b,
     step acc b = acc \/ exists o r, step acc b = aggregate_curves agg o r)
  (Hagg : agg <> MAX) :
  forall l acc, Forall (fun v => v <= 1) acc ->
  Forall (fun v => v <= 1) (fold_left step l acc).
Proof.
  intros l. induction l as [|b l IH]; intros acc Hacc; simpl; [done|].
  apply IH. destruct (Hstep acc b) as [-> | (o & r & ->)]; [done|].
  by apply aggregate_curves_le_one.
Qed.

Lemma np_zeros_le_one n : Forall (fun v => v <= 1) (np_zeros n).
Proof.
  apply List.Forall_forall. intros v Hv. apply repeat_spec in Hv. subst. lra.
Qed.

Lemma truth_level_step_cases e inputs out ov xr impl agg acc rule :
  truth_level_step e inputs out ov xr impl agg acc rule = acc \/
  exists o r, truth_level_step e inputs out ov xr impl agg acc rule
              = aggregate_curves agg o r.
Proof.
  unfold truth_level_step.
  destruct (decide _); [by left|].
  destruct (Qeq_bool _ 0); [by left|].
  destruct (terms ov !! result_term rule); [right; eauto | by left].
Qed.

(** Claim C7: SUM and PROBOR never exceed 1, for any values: the scalar
    [_aggregate], the pointwise curve aggregation, and every output curve
    of both mechanisms. *)
Theorem sum_probor_at_most_one :
  (forall values, aggregate values SUM <= 1 /\ aggregate values PROBOR <= 1)
  /\ (forall o r, Forall (fun v => v <= 1) (aggregate_curves SUM o r)
                  /\ Forall (fun v => v <= 1) (aggregate_curves PROBOR o r))
  /\ (forall e inputs out impl agg res mf xr, agg <> MAX ->
        inference_truth_level e inputs out impl agg res = inr (mf, xr) ->
        Forall (fun v => v <= 1) mf)
  /\ (forall e inputs out comp impl agg res mf xr, agg <> MAX ->
        inference_composition e inputs out comp impl agg res = inr (mf, xr) ->
        Forall (fun v => v <= 1) mf).
Proof.
  assert (Htl : forall e inputs out impl agg res mf xr, agg <> MAX ->
        inference_truth_level e inputs out impl agg res = inr (mf, xr) ->
        Forall (fun v => v <= 1) mf).
  { intros e inputs out impl agg res mf xr Hagg H.
    unfold inference_truth_level in H.
    destruct (variables e !! out) as [ov|]; [|discriminate].
    injection H as <- _.
    apply (fold_steps_le_one _ agg); [|done|apply np_zeros_le_one].
    intros; apply truth_level_step_cases. }
  split; [|split; [|split]].
  - intros [|v0 vs]; simpl; split; try lra; apply qmin_one_le.
  - intros o r. split; apply aggregate_curves_le_one; discriminate.
  - exact Htl.
  - intros e inputs out comp impl agg res mf xr Hagg H.
    rewrite composition_truth_level in H.
    eapply Htl; eauto.
Qed.

(** Claim C1 fails as stated: with Larsen implication and max-product
    composition, at [amount = 6] and an output grid of 3 points, the
    composition mechanism gives 1/2 at [y = 50] where the relational form
    gives 99/200. *)
Lemma composition_relational_counterexample :
  ~ (exists mf xr B,
       inference_composition amount_engine (amount_inputs 6) "power"
         MAX_PROD LARSEN MAX 3 = inr (mf, xr)
       /\ spec_relational_rule_output amount_engine (amount_inputs 6)
            amount_rule power_var xr MAX_PROD LARSEN = Some B
       /\ Forall2 Qeq mf (np_maximum (np_zeros 3) B)).
Proof.
  intros (mf & xr & B & H1 & H2 & H3).
  vm_compute in H1. injection H1 as <- <-.
  vm_compute in H2. injection H2 as <-.
  vm_compute in H3.
  inversion H3 as [|? ? ? ? _ H4]; subst.
  inversion H4 as [|? ? ? ? Hb _]; subst.
  vm_compute in Hb. discriminate.
Qed.

(** ** Rule truth evaluation *)

Lemma qmin_nonneg a b : 0 <= a -> 0 <= b -> 0 <= qmin a b.
Proof. unfold qmin. q_cases; lra. Qed.

Lemma fold_qmax_ge_init t h : h <= fold_left qmax t h.
Proof.
  revert h. induction t as [|x t IH]; intros h; simpl; [lra|].
  eapply Qle_trans; [|apply IH]. unfold qmax. q_cases; lra.
Qed.

Lemma list_max_nonneg l : Forall (fun v => 0 <= v) l -> 0 <= list_max l.
Proof.
  destruct l as [|h t]; simpl; [lra|]. intros Hl. inversion Hl; subst.
  eapply Qle_trans; [eassumption | apply fold_qmax_ge_init].
Qed.

(** The minimum of non-negative values one of which is 0 is 0. *)
Lemma fold_qmin_zero t h :
  0 <= h -> Forall (fun v => 0 <= v) t ->
  (h == 0 \/ Exists (fun v => v == 0) t) -> fold_left qmin t h == 0.
Proof.
  revert h. induction t as [|x t IH]; intros h Hh Ht Hz; simpl.
  - destruct Hz as [Hz | Hz]; [exact Hz | inversion Hz].
  - inversion Ht as [|? ? Hx Ht']; subst.
    apply IH; [apply qmin_nonneg; lra | exact Ht'|].
    destruct Hz as [Hz | Hz]; [left | inversion Hz as [? ? Hz'|? ? Hz']; subst].
    + unfold qmin. q_cases; lra.
    + left. unfold qmin. q_cases; lra.
    + right. exact Hz'.
Qed.

Lemma list_min_zero l :
  Forall (fun v => 0 <= v) l -> Exists (fun v => v == 0) l -> list_min l == 0.
Proof.
  destruct l as [|h t]; [intros _ Hz; inversion Hz|].
  intros Hl Hz. inversion Hl; subst. simpl.
  apply fold_qmin_zero; [assumption | assumption|].
  inversion Hz; subst; [left | right]; assumption.
Qed.

Lemma Forall_zip_with {A B C} (P1 : A -> Prop) (P2 : B -> Prop)
  (P : C -> Prop) (f : A -> B -> C) l1 l2 :
  Forall P1 l1 -> Forall P2 l2 ->
  (forall a b, P1 a -> P2 b -> P (f a b)) -> Forall P (zip_with f l1 l2).
Proof.
  intros H1 H2 Hf. revert l2 H2.
  induction H1 as [|a l1 Ha H1 IH]; intros [|b l2] H2; simpl; constructor;
    inversion H2; subst; auto.
Qed.

Lemma condition_truth_nonneg e var fs value :
  0 <= condition_truth e var fs value.
Proof.
  unfold condition_truth, build_input_membership. simpl.
  apply list_max_nonneg.
  apply (Forall_zip_with (fun a => 0 <= a) (fun b => 0 <= b)).
  - apply List.Forall_map, List.Forall_forall. intros x _.
    unfold qmax. q_cases; lra.
  - apply List.Forall_map, List.Forall_forall. intros x _.
    apply membership_unit.
  - intros a b Ha Hb. apply qmin_nonneg; assumption.
Qed.

Lemma eval_conditions_acc_zero e inputs conds acc :
  Forall (fun v => 0 <= v) acc -> Exists (fun v => v == 0) acc ->
  eval_conditions e inputs conds acc == 0.
Proof.
  revert acc. induction conds as [|[v t] rest IH]; intros acc Hacc Hz; simpl.
  - destruct acc as [|h tl]; [inversion Hz|]. apply list_min_zero; assumption.
  - destruct (inputs !! v); [|reflexivity].
    destruct (variables e !! v) as [var|]; [|reflexivity].
    destruct (terms var !! t) as [fs|]; apply IH;
      try (apply Forall_app; split; [assumption | constructor; [|constructor]]);
      try lra; try apply condition_truth_nonneg;
      apply Exists_app; left; assumption.
Qed.

Lemma eval_conditions_unknown e inputs conds acc :
  Forall (fun v => 0 <= v) acc -> Exists (unknown_condition e inputs) conds ->
  eval_conditions e inputs conds acc == 0.
Proof.
  revert acc. induction conds as [|[v t] rest IH]; intros acc Hacc Hu;
    [inversion Hu|]. simpl.
  destruct (inputs !! v) as [value|] eqn:Ei; [|reflexivity].
  destruct (variables e !! v) as [var|] eqn:Ev; [|reflexivity].
  destruct (terms var !! t) as [fs|] eqn:Et.
  - inversion Hu as [? ? Hh | ? ? Hr]; subst.
    + exfalso. destruct Hh as [H | [H | (var' & H1 & H2)]]; simpl in *;
        congruence.
    + apply IH; [|exact Hr]. apply Forall_app; split; [assumption|].
      constructor; [apply condition_truth_nonneg | constructor].
  - apply eval_conditions_acc_zero.
    + apply Forall_app; split; [assumption | constructor; [lra | constructor]].
    + apply Exists_app; right. constructor. reflexivity.
Qed.

Lemma eval_conditions_with_rules e rs inputs conds acc :
  eval_conditions (with_rules e rs) inputs conds acc =
  eval_conditions e inputs conds acc.
Proof.
  revert acc. induction conds as [|[v t] rest IH]; intros acc; simpl; [done|].
  destruct (inputs !! v); [|done].
  destruct (variables e !! v) as [var|]; [|done].
  destruct (terms var !! t) as [fs|]; [|apply IH].
  rewrite IH. reflexivity.
Qed.

Lemma truth_level_step_with_rules e rs inputs out ov xr impl agg acc rule :
  truth_level_step (with_rules e rs) inputs out ov xr impl agg acc rule =
  truth_level_step e inputs out ov xr impl agg acc rule.
Proof.
  unfold truth_level_step, evaluate_rule_conditions.
  rewrite eval_conditions_with_rules. reflexivity.
Qed.

Lemma truth_level_step_zero e inputs out ov xr impl agg acc rule :
  evaluate_rule_conditions e rule inputs == 0 ->
  truth_level_step e inputs out ov xr impl agg acc rule = acc.
Proof.
  intros H0. unfold truth_level_step.
  destruct (decide _); [done|].
  apply Qeq_bool_iff in H0. rewrite H0. reflexivity.
Qed.

Lemma truth_level_rule_removed e pre r post inputs out impl agg res :
  evaluate_rule_conditions e r inputs == 0 ->
  inference_truth_level (with_rules e (pre ++ r :: post)) inputs out impl agg
    res =
  inference_truth_level (with_rules e (pre ++ post)) inputs out impl agg res.
Proof.
  intros H0. unfold inference_truth_level. simpl.
  destruct (variables e !! out) as [ov|]; [|done].
  do 2 f_equal.
  rewrite !(fold_left_ext_pointwise _ _ _ _ (truth_level_step_with_rules _ _ _ _ _ _ _ _)).
  rewrite !fold_left_app. simpl. rewrite truth_level_step_zero by exact H0.
  reflexivity.
Qed.

(** Claim C5: a rule with a condition whose variable is absent from the
    inputs, or whose variable or term is unknown, has truth 0 (computed by
    a total function: no exception), and both mechanisms skip it: the
    output is the one of the same engine without that rule. *)
Theorem unknown_condition_rule_skipped e pre r post inputs
  (Hu : Exists (unknown_condition e inputs) (conditions r)) :
  evaluate_rule_conditions e r inputs == 0
  /\ (forall out impl agg res,
        inference_truth_level (with_rules e (pre ++ r :: post)) inputs out
          impl agg res =
        inference_truth_level (with_rules e (pre ++ post)) inputs out
          impl agg res)
  /\ (forall out comp impl agg res,
        inference_composition (with_rules e (pre ++ r :: post)) inputs out
          comp impl agg res =
        inference_composition (with_rules e (pre ++ post)) inputs out
          comp impl agg res).
Proof.
  assert (H0 : evaluate_rule_conditions e r inputs == 0).
  { apply eval_conditions_unknown; [constructor | exact Hu]. }
  split; [exact H0|]. split.
  - intros. apply truth_level_rule_removed. exact H0.
  - intros. rewrite !composition_truth_level.
    apply truth_level_rule_removed. exact H0.
Qed.

Lemma unknown_condition_rule_skipped_witness :
  Exists (unknown_condition amount_engine (amount_inputs 6))
    (conditions {| conditions := [("speed", "high")]; result_var := "power";
                   result_term := "full" |})
  /\ (evaluate_rule_conditions amount_engine
        {| conditions := [("speed", "high")]; result_var := "power";
           result_term := "full" |} (amount_inputs 6) == 0
      /\ (forall out impl agg res,
            inference_truth_level (with_rules amount_engine
              ([amount_rule] ++ {| conditions := [("speed", "high")];
                  result_var := "power"; result_term := "full" |} :: []))
              (amount_inputs 6) out impl agg res =
            inference_truth_level (with_rules amount_engine
              ([amount_rule] ++ [])) (amount_inputs 6) out impl agg res)
      /\ (forall out comp impl agg res,
            inference_composition (with_rules amount_engine
              ([amount_rule] ++ {| conditions := [("speed", "high")];
                  result_var := "power"; result_term := "full" |} :: []))
              (amount_inputs 6) out comp impl agg res =
            inference_composition (with_rules amount_engine
              ([amount_rule] ++ [])) (amount_inputs 6) out comp impl agg res)).
Proof.
  assert (Hu : Exists (unknown_condition amount_engine (amount_inputs 6))
    (conditions {| conditions := [("speed", "high")]; result_var := "power";
                   result_term := "full" |})).
  { constructor. left. reflexivity. }
  split; [exact Hu|].
  exact (unknown_condition_rule_skipped amount_engine [amount_rule] _ [] _ Hu).
Defined.

Lemma eval_conditions_known e inputs conds acc :
  Forall (fun c => ~ unknown_condition e inputs c) conds ->
  exists ts, Forall2 (condition_truth_of e inputs) conds ts /\
    eval_conditions e inputs conds acc =
      match acc ++ ts with [] => 0 | _ => list_min (acc ++ ts) end.
Proof.
  revert acc. induction conds as [|[v t] rest IH]; intros acc Hk.
  - exists []. split; [constructor|]. simpl. rewrite app_nil_r.
    destruct acc; reflexivity.
  - inversion Hk as [|? ? Hh Hr]; subst. simpl.
    destruct (inputs !! v) as [value|] eqn:Ei;
      [|exfalso; apply Hh; left; exact Ei].
    destruct (variables e !! v) as [var|] eqn:Ev;
      [|exfalso; apply Hh; right; left; exact Ev].
    destruct (terms var !! t) as [fs|] eqn:Et;
      [|exfalso; apply Hh; right; right; exists var; split; assumption].
    destruct (IH (acc ++ [condition_truth e var fs value]) Hr)
      as (ts & Hts & ->).
    exists (condition_truth e var fs value :: ts). split.
    + constructor; [|exact Hts]. exists value, var, fs. auto.
    + rewrite <- app_assoc. reflexivity.
Qed.

(** Claim C2 (as amended): when every condition is known, the rule's truth
    is the minimum over its conditions of the per-condition truth
    [condition_truth]: the maximum over the condition grid (the
    [condition_resolution] points of the variable's domain) of
    [min(A'(x), mu_term(x))], where [A'] is the fuzzified singleton at
    [inputs[var]]; the term is not evaluated at [inputs[var]] itself. *)
Theorem rule_truth_min_of_condition_heights e rule inputs
  (Hne : conditions rule <> [])
  (Hknown : Forall (fun c => ~ unknown_condition e inputs c) (conditions rule)) :
  exists ts, Forall2 (condition_truth_of e inputs) (conditions rule) ts /\
    evaluate_rule_conditions e rule inputs = list_min ts.
Proof.
  unfold evaluate_rule_conditions.
  destruct (eval_conditions_known e inputs (conditions rule) [] Hknown)
    as (ts & Hts & ->).
  exists ts. split; [exact Hts|]. simpl.
  destruct ts; [|reflexivity].
  inversion Hts; subst; congruence.
Qed.

Lemma rule_truth_min_of_condition_heights_witness :
  conditions tri_rule <> [] /\
  Forall (fun c => ~ unknown_condition tri_engine (<["v" := 0]> ∅) c)
    (conditions tri_rule) /\
  exists ts, Forall2 (condition_truth_of tri_engine (<["v" := 0]> ∅))
               (conditions tri_rule) ts /\
    evaluate_rule_conditions tri_engine tri_rule (<["v" := 0]> ∅) = list_min ts.
Proof.
  assert (Hne : conditions tri_rule <> []) by discriminate.
  assert (Hk : Forall (fun c => ~ unknown_condition tri_engine (<["v" := 0]> ∅) c)
                 (conditions tri_rule)).
  { constructor; [|constructor].
    intros [H | [H | (var & H1 & H2)]];
      [vm_compute in H; discriminate | vm_compute in H; discriminate|].
    vm_compute in H1. injection H1 as <-. vm_compute in H2. discriminate. }
  split; [exact Hne|]. split; [exact Hk|].
  exact (rule_truth_min_of_condition_heights tri_engine tri_rule _ Hne Hk).
Defined.

(** Claim C2 fails as stated: for [Triangular(0,5,10)] on [0,10] and the
    input 0 the rule's truth is 1/100, while the term evaluated at 0 is 0. *)
Lemma rule_truth_exact_eval_counterexample :
  ~ (evaluate_rule_conditions tri_engine tri_rule (<["v" := 0]> ∅) ==
     list_min [membership {| fs_name := "t"; mf := TriangularMF 0 5 10 |} 0]).
Proof. intros H. vm_compute in H. discriminate. Qed.

(** ** Defuzzification *)

Lemma np_sum_acc l a :
  fold_left (fun s v => Qred (s + v)) l a == a + qsum l.
Proof.
  revert a. induction l as [|h t IH]; intros a; simpl; [lra|].
  rewrite IH, Qred_correct. lra.
Qed.

Lemma np_sum_qsum l : np_sum l == qsum l.
Proof. unfold np_sum. rewrite np_sum_acc. lra. Qed.

Lemma qsum_zero l : Forall (fun m => m == 0) l -> qsum l == 0.
Proof.
  induction 1 as [|h t Hh _ IH]; simpl; [reflexivity|]. rewrite Hh, IH. lra.
Qed.

Lemma qsum_nonneg l : Forall (fun m => 0 <= m) l -> 0 <= qsum l.
Proof. induction 1; simpl; lra. Qed.

Lemma qsum_pos l :
  Forall (fun m => 0 <= m) l -> ~ Forall (fun m => m == 0) l -> 0 < qsum l.
Proof.
  induction 1 as [|h t Hh Ht IH]; intros Hnz; [exfalso; apply Hnz; constructor|].
  simpl. destruct (Qeq_dec h 0) as [E|E].
  - assert (0 < qsum t) by (apply IH; intros Hz; apply Hnz; constructor; assumption).
    lra.
  - pose proof (qsum_nonneg t Ht).
    apply Qle_lteq in Hh as [Hh|Hh]; [lra | exfalso; apply E; symmetry; exact Hh].
Qed.

Lemma fold_qmax_in t h : fold_left qmax t h = h \/ In (fold_left qmax t h) t.
Proof.
  revert h. induction t as [|x t IH]; intros h; simpl; [by left|].
  destruct (IH (qmax h x)) as [-> | Hin]; [|by right; right].
  unfold qmax. destruct (Qlt_bool h x); [right; left | left]; reflexivity.
Qed.

Lemma fold_qmax_ge_all t h : Forall (fun x => x <= fold_left qmax t h) t.
Proof.
  revert h. induction t as [|x t IH]; intros h; simpl; constructor; [|apply IH].
  eapply Qle_trans; [|apply fold_qmax_ge_init]. unfold qmax. q_cases; lra.
Qed.

(** [max(mu)] is one of the values of [mu] and bounds all of them. *)
Lemma list_max_spec l :
  l <> [] -> In (list_max l) l /\ Forall (fun m => m <= list_max l) l.
Proof.
  destruct l as [|h t]; [done|]. intros _. simpl. split.
  - destruct (fold_qmax_in t h) as [-> | Hin]; [left | right]; auto.
  - constructor; [apply fold_qmax_ge_init | apply fold_qmax_ge_all].
Qed.

Lemma list_max_zero l :
  l <> [] -> Forall (fun m => m == 0) l -> list_max l == 0.
Proof.
  intros Hne Hz. destruct (list_max_spec l Hne) as [Hin _].
  rewrite List.Forall_forall in Hz. apply Hz, Hin.
Qed.

Lemma exists_pos l :
  Forall (fun m => 0 <= m) l -> ~ Forall (fun m => m == 0) l ->
  exists m, In m l /\ 0 < m.
Proof.
  induction 1 as [|h t Hh Ht IH]; intros Hnz; [exfalso; apply Hnz; constructor|].
  destruct (Qeq_dec h 0) as [E|E].
  - destruct IH as (m & Hin & Hm);
      [intros Hz; apply Hnz; constructor; assumption|].
    exists m. split; [right|]; assumption.
  - exists h. split; [left; reflexivity|].
    apply Qle_lteq in Hh as [Hh|Hh]; [exact Hh | exfalso; apply E; symmetry; exact Hh].
Qed.

Lemma list_max_pos l :
  Forall (fun m => 0 <= m) l -> ~ Forall (fun m => m == 0) l ->
  0 < list_max l.
Proof.
  intros Hnn Hnz. destruct (exists_pos l Hnn Hnz) as (m & Hin & Hm).
  assert (Hne : l <> []) by (intros ->; inversion Hin).
  destruct (list_max_spec l Hne) as [_ Hge].
  rewrite List.Forall_forall in Hge. specialize (Hge m Hin). lra.
Qed.

Lemma searchsorted_spec (a : list Q) (v : Q) :
  ((searchsorted a v < length a)%nat /\ v <= nth (searchsorted a v) a 0 /\
   forall j, (j < searchsorted a v)%nat -> nth j a 0 < v)
  \/ (searchsorted a v = length a /\
      forall j, (j < length a)%nat -> nth j a 0 < v).
Proof.
  induction a as [|h t IH]; simpl.
  - right. split; [reflexivity | intros j Hj; lia].
  - destruct (Qle_bool v h) eqn:E.
    + left. apply Qle_bool_iff in E. split; [lia|]. split; [exact E | intros j Hj; lia].
    + apply Qle_bool_false in E.
      destruct IH as [(Hlt & Hle & Hbef) | (Heq & Hall)].
      * left. split; [lia|]. split; [exact Hle|].
        intros [|j] Hj; [exact E | apply Hbef; lia].
      * right. split; [lia|]. intros [|j] Hj; [exact E | apply Hall; lia].
Qed.

Lemma length_cumsum_from acc l : length (cumsum_from acc l) = length l.
Proof.
  revert acc. induction l as [|h t IH]; intros acc; simpl; [done|].
  by rewrite IH.
Qed.

(** Claim C6: on an all-zero curve the three defuzzifiers return the mean
    of the grid; on a non-negative curve that is not all zero, centroid is
    [sum(x*mu)/sum(mu)], bisector is [x] at the first index whose
    cumulative sum reaches half the total (the last index when none does),
    and mean-of-maximum is the mean of the [x] at which [mu] attains its
    maximum. *)
Theorem defuzzify_zero_fallback_and_formulas (mu x : list Q)
  (Hlen : length mu = length x)
  (Hnn : Forall (fun m => 0 <= m) mu) :
  (Forall (fun m => m == 0) mu ->
     defuzzify_centroid mu x = np_mean x /\
     defuzzify_bisector mu x = np_mean x /\
     defuzzify_mom mu x = np_mean x)
  /\ (~ Forall (fun m => m == 0) mu ->
     defuzzify_centroid mu x = np_sum (zip_with Qmult x mu) / np_sum mu
     /\ (exists i, defuzzify_bisector mu x = nth i x 0 /\
           (((i < length x)%nat /\ np_sum mu / 2 <= nth i (np_cumsum mu) 0 /\
             forall j, (j < i)%nat -> nth j (np_cumsum mu) 0 < np_sum mu / 2)
            \/ (i = (length x - 1)%nat /\
                forall j, (j < length x)%nat ->
                  nth j (np_cumsum mu) 0 < np_sum mu / 2)))
     /\ defuzzify_mom mu x =
          np_mean (map fst (List.filter (fun p => Qeq_bool (snd p) (list_max mu))
                              (combine x mu)))
     /\ In (list_max mu) mu /\ Forall (fun m => m <= list_max mu) mu).
Proof.
  split.
  - intros Hz.
    assert (Hs : Qeq_bool (np_sum mu) 0 = true).
    { apply Qeq_bool_iff. rewrite np_sum_qsum. apply qsum_zero, Hz. }
    assert (Hm : Qeq_bool (list_max mu) 0 = true).
    { apply Qeq_bool_iff. destruct mu as [|h t]; [reflexivity|].
      apply list_max_zero; [discriminate | exact Hz]. }
    unfold defuzzify_centroid, defuzzify_bisector, defuzzify_mom.
    rewrite Hs, Hm. auto.
  - intros Hnz.
    assert (Hs : Qeq_bool (np_sum mu) 0 = false).
    { apply not_true_is_false. intros H. apply Qeq_bool_iff in H.
      rewrite np_sum_qsum in H. pose proof (qsum_pos mu Hnn Hnz). lra. }
    assert (Hm : Qeq_bool (list_max mu) 0 = false).
    { apply not_true_is_false. intros H. apply Qeq_bool_iff in H.
      pose proof (list_max_pos mu Hnn Hnz). lra. }
    assert (Hne : mu <> []) by (intros ->; apply Hnz; constructor).
    unfold defuzzify_centroid, defuzzify_bisector, defuzzify_mom.
    rewrite Hs, Hm. split; [reflexivity|]. split.
    + assert (Hc : length (np_cumsum mu) = length x)
        by (unfold np_cumsum; rewrite length_cumsum_from; exact Hlen).
      destruct (searchsorted_spec (np_cumsum mu) (np_sum mu / 2))
        as [(Hlt & Hle & Hbef) | (Heq & Hall)].
      * exists (searchsorted (np_cumsum mu) (np_sum mu / 2)).
        rewrite Hc in Hlt.
        destruct (Nat.leb_spec (length x) (searchsorted (np_cumsum mu) (np_sum mu / 2)))
          as [Hge|_]; [lia|].
        split; [reflexivity|]. left. auto.
      * exists (length x - 1)%nat.
        rewrite Hc in Heq, Hall. rewrite Heq, Nat.leb_refl.
        split; [reflexivity|]. right. auto.
    + split; [reflexivity|]. apply list_max_spec, Hne.
Qed.

Lemma defuzzify_zero_fallback_and_formulas_witness :
  length [0; 1#2; 0] = length [0; 50; 100] /\
  Forall (fun m => 0 <= m) [0; 1#2; 0] /\
  ((Forall (fun m => m == 0) [0; 1#2; 0] ->
     defuzzify_centroid [0; 1#2; 0] [0; 50; 100] = np_mean [0; 50; 100] /\
     defuzzify_bisector [0; 1#2; 0] [0; 50; 100] = np_mean [0; 50; 100] /\
     defuzzify_mom [0; 1#2; 0] [0; 50; 100] = np_mean [0; 50; 100])
  /\ (~ Forall (fun m => m == 0) [0; 1#2; 0] ->
     defuzzify_centroid [0; 1#2; 0] [0; 50; 100] =
       np_sum (zip_with Qmult [0; 50; 100] [0; 1#2; 0]) / np_sum [0; 1#2; 0]
     /\ (exists i, defuzzify_bisector [0; 1#2; 0] [0; 50; 100] = nth i [0; 50; 100] 0 /\
           (((i < length [0; 50; 100])%nat /\
             np_sum [0; 1#2; 0] / 2 <= nth i (np_cumsum [0; 1#2; 0]) 0 /\
             forall j, (j < i)%nat ->
               nth j (np_cumsum [0; 1#2; 0]) 0 < np_sum [0; 1#2; 0] / 2)
            \/ (i = (length [0; 50; 100] - 1)%nat /\
                forall j, (j < length [0; 50; 100])%nat ->
                  nth j (np_cumsum [0; 1#2; 0]) 0 < np_sum [0; 1#2; 0] / 2)))
     /\ defuzzify_mom [0; 1#2; 0] [0; 50; 100] =
          np_mean (map fst (List.filter
            (fun p => Qeq_bool (snd p) (list_max [0; 1#2; 0]))
            (combine [0; 50; 100] [0; 1#2; 0])))
     /\ In (list_max [0; 1#2; 0]) [0; 1#2; 0]
     /\ Forall (fun m => m <= list_max [0; 1#2; 0]) [0; 1#2; 0])).
Proof.
  assert (Hnn : Forall (fun m => 0 <= m) [0; 1#2; 0]).
  { repeat constructor; vm_compute; discriminate. }
  split; [reflexivity|]. split; [exact Hnn|].
  exact (defuzzify_zero_fallback_and_formulas [0; 1#2; 0] [0; 50; 100] eq_refl Hnn).
Defined.

(** ** Variable ranges *)

Lemma fold_qmin_le_init t h : fold_left qmin t h <= h.
Proof.
  revert h. induction t as [|x t IH]; intros h; simpl; [lra|].
  eapply Qle_trans; [apply IH|]. unfold qmin. q_cases; lra.
Qed.

Lemma fold_qmin_le_all t h : Forall (fun x => fold_left qmin t h <= x) t.
Proof.
  revert h. induction t as [|x t IH]; intros h; simpl; constructor; [|apply IH].
  eapply Qle_trans; [apply fold_qmin_le_init|]. unfold qmin. q_cases; lra.
Qed.

Lemma fold_qmin_in t h : fold_left qmin t h = h \/ In (fold_left qmin t h) t.
Proof.
  revert h. induction t as [|x t IH]; intros h; simpl; [by left|].
  destruct (IH (qmin h x)) as [-> | Hin]; [|by right; right].
  unfold qmin. destruct (Qlt_bool x h); [right; left | left]; reflexivity.
Qed.

Lemma list_min_spec l :
  l <> [] -> In (list_min l) l /\ Forall (fun m => list_min l <= m) l.
Proof.
  destruct l as [|h t]; [done|]. intros _. simpl. split.
  - destruct (fold_qmin_in t h) as [-> | Hin]; [left | right]; auto.
  - constructor; [apply fold_qmin_le_init | apply fold_qmin_le_all].
Qed.

Lemma mf_params_nonempty m : mf_params m <> [].
Proof. destruct m; discriminate. Qed.

Lemma add_term_min_val v tn m :
  min_val (add_term v tn m) = qmin (min_val v) (list_min (mf_params m)).
Proof.
  unfold add_term, update_range_from_mf, qmin. simpl.
  destruct (Qlt_bool (list_min (mf_params m)) (min_val v));
    destruct (Qlt_bool _ (list_max (mf_params m))); reflexivity.
Qed.

Lemma add_term_max_val v tn m :
  max_val (add_term v tn m) = qmax (max_val v) (list_max (mf_params m)).
Proof.
  unfold add_term, update_range_from_mf, qmax. simpl.
  destruct (Qlt_bool (list_min (mf_params m)) (min_val v)); simpl;
    destruct (Qlt_bool (max_val v) (list_max (mf_params m))); reflexivity.
Qed.

Lemma parse_fold_min term_defs v :
  let r := min_val (fold_left (fun v '(tn, m) => add_term v tn m) term_defs v) in
  let ps := concat (map (fun d => mf_params d.2) term_defs) in
  r <= min_val v /\ Forall (fun p => r <= p) ps /\ (r = min_val v \/ In r ps).
Proof.
  revert v. induction term_defs as [|[tn m] defs IH]; intros v; simpl.
  - split; [lra|]. split; [constructor | by left].
  - destruct (IH (add_term v tn m)) as (H1 & H2 & H3).
    rewrite add_term_min_val in H1, H3.
    destruct (list_min_spec _ (mf_params_nonempty m)) as [Hin Hle].
    set (r := min_val (fold_left _ defs _)) in *.
    assert (Hq1 : qmin (min_val v) (list_min (mf_params m)) <= min_val v)
      by (unfold qmin; q_cases; lra).
    assert (Hq2 : qmin (min_val v) (list_min (mf_params m)) <=
                  list_min (mf_params m)) by (unfold qmin; q_cases; lra).
    split; [lra|]. split.
    + apply Forall_app; split; [|exact H2].
      eapply Forall_impl; [exact Hle|]. simpl. intros p Hp. lra.
    + destruct H3 as [H3 | H3]; [|right; apply in_or_app; right; exact H3].
      rewrite H3. unfold qmin. destruct (Qlt_bool _ _);
        [right; apply in_or_app; left; exact Hin | left; reflexivity].
Qed.

Lemma parse_fold_max term_defs v :
  let r := max_val (fold_left (fun v '(tn, m) => add_term v tn m) term_defs v) in
  let ps := concat (map (fun d => mf_params d.2) term_defs) in
  max_val v <= r /\ Forall (fun p => p <= r) ps /\ (r = max_val v \/ In r ps).
Proof.
  revert v. induction term_defs as [|[tn m] defs IH]; intros v; simpl.
  - split; [lra|]. split; [constructor | by left].
  - destruct (IH (add_term v tn m)) as (H1 & H2 & H3).
    rewrite add_term_max_val in H1, H3.
    destruct (list_max_spec _ (mf_params_nonempty m)) as [Hin Hle].
    set (r := max_val (fold_left _ defs _)) in *.
    assert (Hq1 : max_val v <= qmax (max_val v) (list_max (mf_params m)))
      by (unfold qmax; q_cases; lra).
    assert (Hq2 : list_max (mf_params m) <=
                  qmax (max_val v) (list_max (mf_params m)))
      by (unfold qmax; q_cases; lra).
    split; [lra|]. split.
    + apply Forall_app; split; [|exact H2].
      eapply Forall_impl; [exact Hle|]. simpl. intros p Hp. lra.
    + destruct H3 as [H3 | H3]; [|right; apply in_or_app; right; exact H3].
      rewrite H3. unfold qmax. destruct (Qlt_bool _ _);
        [right; apply in_or_app; left; exact Hin | left; reflexivity].
Qed.

Lemma linspace_ends start stop n :
  (2 <= n)%nat ->
  (exists h, hd_error (linspace start stop n) = Some h /\ h == start) /\
  last (linspace start stop n) = Some stop.
Proof.
  intros Hn. destruct n as [|[|k]]; [lia | lia|].
  unfold linspace. split.
  - eexists; split; [reflexivity|]. unfold Q_of_nat. simpl. ring.
  - apply last_snoc.
Qed.

(** Claim C9: after [_parse_variable], [min_val] is the minimum of the
    declared [min] and of every term parameter, [max_val] the maximum of
    the declared [max] and of every term parameter (each [add_term] widens
    the range to enclose the new term's parameters), and the grids of the
    engine (the condition grid and the output grid of both mechanisms) run
    from this [min_val] to this [max_val]. *)
Theorem parse_variable_range_widened name lo hi term_defs :
  let v := parse_variable name lo hi term_defs in
  let ps := concat (map (fun d => mf_params d.2) term_defs) in
  (min_val v <= lo /\ Forall (fun p => min_val v <= p) ps /\
   (min_val v = lo \/ In (min_val v) ps))
  /\ (hi <= max_val v /\ Forall (fun p => p <= max_val v) ps /\
   (max_val v = hi \/ In (max_val v) ps))
  /\ (forall e value,
        (exists h, hd_error (fst (build_input_membership e v value)) = Some h
                   /\ h == min_val v)
        /\ last (fst (build_input_membership e v value)) = Some (max_val v))
  /\ (forall e inputs impl agg n, variables e !! name = Some v -> (2 <= n)%nat ->
        exists mf xr,
          inference_truth_level e inputs name impl agg n = inr (mf, xr) /\
          (exists h, hd_error xr = Some h /\ h == min_val v) /\
          last xr = Some (max_val v))
  /\ (forall e inputs comp impl agg n, variables e !! name = Some v ->
        (2 <= n)%nat ->
        exists mf xr,
          inference_composition e inputs name comp impl agg n = inr (mf, xr) /\
          (exists h, hd_error xr = Some h /\ h == min_val v) /\
          last xr = Some (max_val v)).
Proof.
  intros v ps.
  assert (Hgrid : forall e inputs impl agg n, variables e !! name = Some v ->
        (2 <= n)%nat ->
        exists mf xr,
          inference_truth_level e inputs name impl agg n = inr (mf, xr) /\
          (exists h, hd_error xr = Some h /\ h == min_val v) /\
          last xr = Some (max_val v)).
  { intros e inputs impl agg n Hv Hn. unfold inference_truth_level. rewrite Hv.
    do 2 eexists. split; [reflexivity|]. apply linspace_ends, Hn. }
  split; [apply (parse_fold_min term_defs (new_variable name lo hi))|].
  split; [apply (parse_fold_max term_defs (new_variable name lo hi))|].
  split; [|split; [exact Hgrid|]].
  - intros e value. apply linspace_ends. unfold condition_resolution. lia.
  - intros e inputs comp impl agg n Hv Hn.
    rewrite composition_truth_level. apply Hgrid; assumption.
Qed.

(** ** The end-to-end example at [amount = 6] *)

(** Claim C3 (as amended): [high = Triangular(3,6,6)]
    is 0 at 6, so the fuzzified input at 6 only meets [high] at the grid
    point 5.97 and the rule's truth is 1/2, not 1; the truth-level
    mechanism (Mamdani, MAX, 1000 points) caps [full] at 1/2 instead of
    leaving it unchanged; its centroid is still 50. *)
Theorem amount_end_to_end_at_six :
  mf_call (TriangularMF 3 6 6) 6 = Some 0 /\
  evaluate_rule_conditions amount_engine amount_rule (amount_inputs 6) == 1#2 /\
  exists mf xr,
    inference_truth_level amount_engine (amount_inputs 6) "power"
      MAMDANI MAX 1000 = inr (mf, xr) /\
    list_max mf == 1#2 /\
    1#2 < list_max (map (membership {| fs_name := "full";
                                       mf := TriangularMF 0 50 100 |}) xr) /\
    defuzzify_centroid mf xr == 50.
Proof.
  split; [reflexivity|]. split; [vm_compute; reflexivity|].
  destruct (inference_truth_level amount_engine (amount_inputs 6) "power"
              MAMDANI MAX 1000) as [err|[mf xr]] eqn:E;
    [vm_compute in E; discriminate|].
  exists mf, xr. split; [reflexivity|].
  vm_compute in E. injection E as <- <-.
  split; [|split]; vm_compute; reflexivity.
Qed.

(** Claim C3 fails as stated: at [amount = 6] the rule's truth is not 1. *)
Lemma amount_truth_not_one_counterexample :
  ~ (evaluate_rule_conditions amount_engine amount_rule (amount_inputs 6) == 1).
Proof. intros H. vm_compute in H. discriminate. Qed.

(** * Further properties of the parser and the engine *)

(** ** Terms of a variable *)

Lemma add_term_terms v tn m :
  terms (add_term v tn m) = <[tn := {| fs_name := tn; mf := m |}]> (terms v).
Proof.
  unfold add_term, update_range_from_mf. simpl.
  destruct (Qlt_bool _ _); simpl; destruct (Qlt_bool _ _); reflexivity.
Qed.

(** [add_term] followed by [get_membership]: the added term answers with
    its membership function (replacing an earlier term of that name), the
    other terms are unchanged, and an unknown term has membership 0. *)
Theorem add_term_get_membership v tn m x :
  mf_call m x = Some (get_membership (add_term v tn m) tn x)
  /\ (forall t, t <> tn -> get_membership (add_term v tn m) t x =
                           get_membership v t x)
  /\ (forall t, terms v !! t = None -> get_membership v t x = 0)
  /\ (forall t, 0 <= get_membership v t x <= 1).
Proof.
  split; [|split; [|split]].
  - unfold get_membership. rewrite add_term_terms, lookup_insert_eq.
    apply (membership_spec {| fs_name := tn; mf := m |}).
  - intros t Hne. unfold get_membership. rewrite add_term_terms.
    rewrite lookup_insert_ne by congruence. reflexivity.
  - intros t Ht. unfold get_membership. rewrite Ht. reflexivity.
  - intros t. unfold get_membership.
    destruct (terms v !! t); [apply membership_unit | lra].
Qed.

(** [fuzzify] has exactly the variable's term names as keys, each mapped
    to that term's membership at [x], a value in [0,1]. *)
Theorem fuzzify_keys_and_values v x t :
  (fuzzify v x !! t = None <-> terms v !! t = None)
  /\ (forall y, fuzzify v x !! t = Some y ->
        exists fs, terms v !! t = Some fs /\ y = membership fs x /\ 0 <= y <= 1).
Proof.
  unfold fuzzify. rewrite map_lookup_imap.
  unfold get_membership.
  destruct (terms v !! t) as [fs|] eqn:E; simpl.
  - split; [split; discriminate|].
    intros y Hy. injection Hy as <-.
    exists fs. split; [reflexivity|]. split; [reflexivity | apply membership_unit].
  - split; [tauto | discriminate].
Qed.

(** ** Membership-function creation and rule parsing *)


(** [_parse_rules]: an empty ["then"] object anywhere raises
    [IndexError]; otherwise every JSON rule gives one rule, in order, with
    the ["if"] object as its conditions and the first ["then"] entry as
    its consequent. *)
Theorem parse_rules_spec rules_json :
  (Exists (fun j => then_block j = []) rules_json ->
     parse_rules rules_json = inl ParseIndexError)
  /\ (Forall (fun j => then_block j <> []) rules_json ->
     exists rs, parse_rules rules_json = inr rs /\
       Forall2 (fun j r => conditions r = if_block j /\
                  hd_error (then_block j) = Some (result_var r, result_term r))
         rules_json rs).
Proof.
  induction rules_json as [|j rest IH]; simpl.
  - split; [intros H; inversion H | intros _; exists []; split; constructor].
  - destruct IH as [IHe IHf]. split.
    + intros Hx. destruct (then_block j) as [|[rv rt] tl] eqn:Ej; [reflexivity|].
      inversion Hx as [? ? Hh | ? ? Hr]; subst; [congruence|].
      rewrite (IHe Hr). reflexivity.
    + intros Hf. inversion Hf as [|? ? Hh Hr]; subst.
      destruct (then_block j) as [|[rv rt] tl] eqn:Ej; [congruence|].
      destruct (IHf Hr) as (rs & -> & Hrs).
      eexists; split; [reflexivity|]. constructor; [|exact Hrs].
      simpl. rewrite Ej. auto.
Qed.

(** ** Rule truths *)

Lemma list_max_le_one l : Forall (fun v => v <= 1) l -> list_max l <= 1.
Proof.
  destruct l as [|h t]; [simpl; lra|]. intros Hl.
  destruct (list_max_spec (h :: t)) as [Hin _]; [discriminate|].
  rewrite List.Forall_forall in Hl. apply Hl, Hin.
Qed.

Lemma condition_truth_le_one e var fs value :
  condition_truth e var fs value <= 1.
Proof.
  unfold condition_truth, build_input_membership. simpl.
  apply list_max_le_one.
  apply (Forall_zip_with (fun _ => True) (fun b => b <= 1)).
  - apply List.Forall_forall. auto.
  - apply List.Forall_map, List.Forall_forall. intros x _.
    apply membership_unit.
  - intros a b _ Hb. unfold qmin. q_cases; lra.
Qed.

Lemma eval_conditions_unit e inputs conds acc :
  Forall (fun v => 0 <= v <= 1) acc ->
  0 <= eval_conditions e inputs conds acc <= 1.
Proof.
  revert acc. induction conds as [|[v t] rest IH]; intros acc Hacc; simpl.
  - destruct acc as [|h tl]; [lra|].
    destruct (list_min_spec (h :: tl)) as [Hin _]; [discriminate|].
    rewrite List.Forall_forall in Hacc. apply Hacc, Hin.
  - destruct (inputs !! v); [|lra].
    destruct (variables e !! v) as [var|]; [|lra].
    destruct (terms var !! t) as [fs|]; apply IH;
      apply Forall_app; (split; [assumption|]); apply Forall_singleton.
    + split; [apply condition_truth_nonneg | apply condition_truth_le_one].
    + lra.
Qed.

Lemma evaluate_rule_conditions_unit e rule inputs :
  0 <= evaluate_rule_conditions e rule inputs <= 1.
Proof. apply eval_conditions_unit. constructor. Qed.

Lemma rule_truth_levels_loop_fst e inputs ov rs :
  map fst (rule_truth_levels_loop e inputs ov rs) =
  match ov with
  | Some o => if String.eqb o "" then rs
              else List.filter (fun r => String.eqb (result_var r) o) rs
  | None => rs
  end.
Proof.
  induction rs as [|r rs IH]; simpl; [destruct ov as [o|]; [destruct (String.eqb o "")|]; done|].
  destruct ov as [o|]; simpl.
  - destruct (String.eqb o "") eqn:Eo; simpl.
    + rewrite IH; rewrite ?Eo. reflexivity.
    + destruct (String.eqb (result_var r) o); simpl; rewrite IH, ?Eo; reflexivity.
  - rewrite IH. reflexivity.
Qed.

Lemma rule_truth_levels_loop_values e inputs ov rs :
  Forall (fun p => snd p = evaluate_rule_conditions e (fst p) inputs)
    (rule_truth_levels_loop e inputs ov rs).
Proof.
  induction rs as [|r rs IH]; simpl; [constructor|].
  destruct (match ov with Some o => _ | None => false end);
    [exact IH | constructor; [reflexivity | exact IH]].
Qed.

(** [get_rule_truth_levels]: without an output variable, or with the empty
    string, it lists every rule in order; with a non-empty name exactly the
    rules concluding on that variable, in order; each paired with the
    rule's truth [evaluate_rule_conditions], a value in [0,1]. *)
Theorem get_rule_truth_levels_spec e inputs :
  map fst (get_rule_truth_levels e inputs None) = rules e
  /\ map fst (get_rule_truth_levels e inputs (Some "")) = rules e
  /\ (forall o, o <> "" ->
        map fst (get_rule_truth_levels e inputs (Some o)) =
        List.filter (fun r => String.eqb (result_var r) o) (rules e))
  /\ (forall ov, Forall (fun p => snd p = evaluate_rule_conditions e (fst p) inputs
                                  /\ 0 <= snd p <= 1)
                   (get_rule_truth_levels e inputs ov)).
Proof.
  unfold get_rule_truth_levels.
  split; [|split; [|split]].
  - apply (rule_truth_levels_loop_fst e inputs None).
  - apply (rule_truth_levels_loop_fst e inputs (Some "")).
  - intros o Ho. rewrite rule_truth_levels_loop_fst.
    destruct (String.eqb_spec o ""); [congruence | reflexivity].
  - intros ov. eapply Forall_impl; [apply rule_truth_levels_loop_values|].
    intros [r t] Ht. simpl in *. split; [exact Ht|].
    rewrite Ht. apply evaluate_rule_conditions_unit.
Qed.

(** ** Output curves *)

Lemma zip_with_length_eq {A B C} (f : A -> B -> C) l k :
  length l = length k -> length (zip_with f l k) = length l.
Proof.
  revert k. induction l as [|a l IH]; intros [|b k] H; simpl in *;
    try done; rewrite IH; [done|lia].
Qed.

Lemma linspace_length start stop n : length (linspace start stop n) = n.
Proof.
  destruct n as [|[|m]]; simpl; try reflexivity.
  rewrite length_app, length_map, length_seq. simpl. lia.
Qed.

Lemma implication_unit a b impl :
  0 <= a <= 1 -> 0 <= b <= 1 -> 0 <= implication a b impl <= 1.
Proof.
  intros Ha Hb. destruct impl; simpl.
  - unfold qmin. q_cases; lra.
  - split; [apply Qmult_le_0_compat; lra|].
    apply Qle_trans with (1 * 1); [|lra].
    apply Qmult_le_compat_nonneg; lra.
Qed.

Lemma aggregate_curves_unit agg o r :
  Forall (fun v => 0 <= v <= 1) o -> Forall (fun v => 0 <= v <= 1) r ->
  length o = length r ->
  Forall (fun v => 0 <= v <= 1) (aggregate_curves agg o r)
  /\ length (aggregate_curves agg o r) = length o.
Proof.
  intros Ho Hr Hl. destruct agg; simpl; rewrite ?length_map;
    (split; [|apply zip_with_length_eq; exact Hl]).
  - apply (Forall_zip_with _ _ _ _ _ _ Ho Hr).
    intros a b Ha Hb. unfold qmax. q_cases; lra.
  - apply List.Forall_map.
    apply (Forall_zip_with _ _ _ _ _ _ Ho Hr).
    intros a b Ha Hb. unfold qmin. q_cases; lra.
  - apply List.Forall_map.
    apply (Forall_zip_with _ _ _ _ _ _ Ho Hr).
    intros a b Ha Hb.
    assert (0 <= b * (1 - a)) by (apply Qmult_le_0_compat; lra).
    unfold qmin. q_cases; lra.
Qed.

Lemma truth_level_step_unit e inputs out ov xr impl agg acc rule :
  Forall (fun v => 0 <= v <= 1) acc -> length acc = length xr ->
  let acc' := truth_level_step e inputs out ov xr impl agg acc rule in
  Forall (fun v => 0 <= v <= 1) acc' /\ length acc' = length xr.
Proof.
  intros Hacc Hl. simpl. unfold truth_level_step.
  destruct (decide _); [auto|].
  destruct (Qeq_bool _ 0); [auto|].
  destruct (terms ov !! result_term rule) as [fs|]; [|auto].
  rewrite <- Hl. apply aggregate_curves_unit; [exact Hacc| |].
  - apply List.Forall_map, List.Forall_map, List.Forall_forall. intros x _.
    apply implication_unit; [apply evaluate_rule_conditions_unit|apply membership_unit].
  - rewrite !length_map. exact Hl.
Qed.

Lemma fold_truth_level_step_unit e inputs out ov xr impl agg rs acc :
  Forall (fun v => 0 <= v <= 1) acc -> length acc = length xr ->
  let acc' := fold_left (truth_level_step e inputs out ov xr impl agg) rs acc in
  Forall (fun v => 0 <= v <= 1) acc' /\ length acc' = length xr.
Proof.
  revert acc. induction rs as [|r rs IH]; intros acc Hacc Hl; simpl; [auto|].
  destruct (truth_level_step_unit e inputs out ov xr impl agg acc r Hacc Hl)
    as [H1 H2].
  apply IH; assumption.
Qed.

Lemma truth_level_curve_unit e inputs out impl agg res :
  match inference_truth_level e inputs out impl agg res with
  | inr (mf, xr) => length mf = res /\ length xr = res /\
                    Forall (fun v => 0 <= v <= 1) mf
  | inl _ => True
  end.
Proof.
  unfold inference_truth_level.
  destruct (variables e !! out) as [ov|]; [|exact I].
  destruct (fold_truth_level_step_unit e inputs out ov
              (linspace (min_val ov) (max_val ov) res) impl agg (rules e)
              (np_zeros res)) as [H1 H2].
  - apply List.Forall_forall. intros v Hv. apply repeat_spec in Hv. subst. lra.
  - unfold np_zeros. rewrite repeat_length, linspace_length. reflexivity.
  - rewrite linspace_length in H2. rewrite linspace_length. auto.
Qed.

(** Both mechanisms, for every implication, aggregation and composition
    type, return a membership curve and a grid of [resolution] points each,
    and every value of the curve lies in [0,1] (even under [MAX]
    aggregation, which the code does not clip). *)
Theorem mechanism_output_curves_unit e inputs out impl agg res :
  match inference_truth_level e inputs out impl agg res with
  | inr (mf, xr) => length mf = res /\ length xr = res /\
                    Forall (fun v => 0 <= v <= 1) mf
  | inl _ => True
  end
  /\ (forall comp,
      match inference_composition e inputs out comp impl agg res with
      | inr (mf, xr) => length mf = res /\ length xr = res /\
                        Forall (fun v => 0 <= v <= 1) mf
      | inl _ => True
      end).
Proof.
  split; [apply truth_level_curve_unit|].
  intros comp. rewrite composition_truth_level. apply truth_level_curve_unit.
Qed.

(** ** Which rules matter *)

Lemma fold_left_filter_skip {A B} (step : A -> B -> A) (p : B -> bool) l a :
  (forall acc b, p b = false -> step acc b = acc) ->
  fold_left step (List.filter p l) a = fold_left step l a.
Proof.
  intros Hskip. revert a. induction l as [|b l IH]; intros a; simpl; [done|].
  destruct (p b) eqn:Ep; simpl; [apply IH|].
  rewrite Hskip by exact Ep. apply IH.
Qed.

Lemma truth_level_step_other e inputs out ov xr impl agg acc rule :
  String.eqb (result_var rule) out = false ->
  truth_level_step e inputs out ov xr impl agg acc rule = acc.
Proof.
  intros H. unfold truth_level_step.
  destruct (decide _) as [_|Hn]; [done|].
  exfalso. apply Hn. intros Heq. rewrite Heq, String.eqb_refl in H. discriminate.
Qed.

(** Only the rules concluding on the output variable matter: both
    mechanisms give the same result on the engine restricted to them. *)
Theorem only_output_rules_matter e inputs out impl agg res :
  let e' := with_rules e
              (List.filter (fun r => String.eqb (result_var r) out) (rules e)) in
  inference_truth_level e inputs out impl agg res =
  inference_truth_level e' inputs out impl agg res
  /\ (forall comp, inference_composition e inputs out comp impl agg res =
                   inference_composition e' inputs out comp impl agg res).
Proof.
  assert (Ht : forall impl',
    inference_truth_level e inputs out impl' agg res =
    inference_truth_level
      (with_rules e (List.filter (fun r => String.eqb (result_var r) out)
                       (rules e))) inputs out impl' agg res).
  { intros impl'. unfold inference_truth_level. simpl.
    destruct (variables e !! out) as [ov|]; [|done].
    do 2 f_equal.
    rewrite (fold_left_ext_pointwise _ _ _ _
               (truth_level_step_with_rules _ _ _ _ _ _ _ _)).
    symmetry. apply fold_left_filter_skip.
    intros acc r Hr. apply truth_level_step_other, Hr. }
  simpl. split; [apply Ht|].
  intros comp. rewrite !composition_truth_level. apply Ht.
Qed.

Lemma np_sum_zeros n : Qeq_bool (np_sum (np_zeros n)) 0 = true.
Proof.
  apply Qeq_bool_iff. rewrite np_sum_qsum. apply qsum_zero.
  apply List.Forall_forall. intros v Hv. apply repeat_spec in Hv. subst.
  reflexivity.
Qed.

Lemma truth_level_no_rule e inputs out ov impl agg res :
  Forall (fun r => result_var r <> out) (rules e) ->
  variables e !! out = Some ov ->
  inference_truth_level e inputs out impl agg res =
  inr (np_zeros res, linspace (min_val ov) (max_val ov) res).
Proof.
  intros Hno Hov. unfold inference_truth_level. rewrite Hov.
  do 2 f_equal. generalize (np_zeros res).
  induction Hno as [|r rs Hr _ IH]; intros acc; simpl; [done|].
  rewrite truth_level_step_other; [apply IH|].
  destruct (String.eqb_spec (result_var r) out); congruence.
Qed.

(** When no rule concludes on the output variable, both mechanisms return
    the all-zero curve on the output grid, and the main window's output
    ([_compute_output_with_membership], whatever mechanism is selected)
    is the centroid fallback: the mean of the 1000-point grid. *)
Theorem no_rule_for_output_zero_curve e inputs out ov
  (Hno : Forall (fun r => result_var r <> out) (rules e))
  (Hov : variables e !! out = Some ov) :
  (forall impl agg res,
     inference_truth_level e inputs out impl agg res =
     inr (np_zeros res, linspace (min_val ov) (max_val ov) res)
     /\ forall comp, inference_composition e inputs out comp impl agg res =
        inr (np_zeros res, linspace (min_val ov) (max_val ov) res))
  /\ (forall k impl agg,
     compute_output_with_membership e inputs out k impl agg =
     inr (np_mean (linspace (min_val ov) (max_val ov) 1000), np_zeros 1000,
          linspace (min_val ov) (max_val ov) 1000)).
Proof.
  split.
  - intros impl agg res. split; [|intros comp; rewrite composition_truth_level];
      apply truth_level_no_rule; assumption.
  - intros k impl agg. unfold compute_output_with_membership.
    rewrite !composition_truth_level, !(truth_level_no_rule e inputs out ov)
      by assumption.
    assert (Hc : forall res, defuzzify_centroid (np_zeros res)
                   (linspace (min_val ov) (max_val ov) res) =
                 np_mean (linspace (min_val ov) (max_val ov) res)).
    { intros res. unfold defuzzify_centroid. rewrite np_sum_zeros. reflexivity. }
    destruct (_ && _); [|destruct (_ && _)]; cbv zeta; rewrite Hc; reflexivity.
Qed.

Lemma no_rule_for_output_zero_curve_witness :
  Forall (fun r => result_var r <> "amount") (rules amount_engine) /\
  variables amount_engine !! "amount" = Some amount_var /\
  ((forall impl agg res,
     inference_truth_level amount_engine (amount_inputs 6) "amount" impl agg res =
     inr (np_zeros res, linspace (min_val amount_var) (max_val amount_var) res)
     /\ forall comp, inference_composition amount_engine (amount_inputs 6)
          "amount" comp impl agg res =
        inr (np_zeros res, linspace (min_val amount_var) (max_val amount_var) res))
  /\ (forall k impl agg,
     compute_output_with_membership amount_engine (amount_inputs 6) "amount"
       k impl agg =
     inr (np_mean (linspace (min_val amount_var) (max_val amount_var) 1000),
          np_zeros 1000, linspace (min_val amount_var) (max_val amount_var) 1000))).
Proof.
  assert (Hno : Forall (fun r => result_var r <> "amount") (rules amount_engine)).
  { constructor; [simpl; discriminate | constructor]. }
  assert (Hov : variables amount_engine !! "amount" = Some amount_var).
  { reflexivity. }
  split; [exact Hno|]. split; [exact Hov|].
  exact (no_rule_for_output_zero_curve amount_engine (amount_inputs 6)
           "amount" amount_var Hno Hov).
Defined.

(** ** Mechanism selection in the main window *)

(** [_compute_output_with_membership]: with no input or more than one
    input the combo index is ignored and the truth-level mechanism runs
    with the chosen implication; with one input, index 0 (max-min) gives
    the truth-level output with [min] clipping and index 1 (max-product)
    the one with product scaling, whatever implication is chosen, and any
    other index the truth-level mechanism with the chosen implication. *)
Theorem compute_output_mechanism_selection e inputs out impl agg :
  (size inputs <> 1%nat -> forall k,
     compute_output_with_membership e inputs out k impl agg =
     with_centroid (inference_truth_level e inputs out impl agg 1000))
  /\ (size inputs = 1%nat ->
     compute_output_with_membership e inputs out 0 impl agg =
     with_centroid (inference_truth_level e inputs out MAMDANI agg 1000)
     /\ compute_output_with_membership e inputs out 1 impl agg =
     with_centroid (inference_truth_level e inputs out LARSEN agg 1000)
     /\ forall k, (2 <= k)%nat ->
     compute_output_with_membership e inputs out k impl agg =
     with_centroid (inference_truth_level e inputs out impl agg 1000)).
Proof.
  unfold compute_output_with_membership. split.
  - intros Hn k. destruct (Nat.eqb_spec (size inputs) 1) as [|_]; [congruence|].
    destruct (1 <? size inputs)%nat; reflexivity.
  - intros H1. rewrite H1. simpl. rewrite !composition_truth_level.
    split; [reflexivity|]. split; [reflexivity|].
    intros k Hk. destruct k as [|[|k]]; [lia|lia|reflexivity].
Qed.

(** ** Range of the defuzzified output *)

Lemma Q_of_nat_S n : Q_of_nat (S n) == Q_of_nat n + 1.
Proof.
  unfold Q_of_nat. rewrite Nat2Z.inj_succ. unfold Z.succ.
  rewrite inject_Z_plus. reflexivity.
Qed.

Lemma Q_of_nat_le i m : (i <= m)%nat -> Q_of_nat i <= Q_of_nat m.
Proof. intros H. unfold Q_of_nat. rewrite <- Zle_Qle. lia. Qed.

Lemma Q_of_nat_pos m : (0 < m)%nat -> 0 < Q_of_nat m.
Proof.
  intros H. unfold Q_of_nat. change 0 with (inject_Z 0). rewrite <- Zlt_Qlt.
  lia.
Qed.

Lemma qsum_bounds lo hi l :
  Forall (fun x => lo <= x <= hi) l ->
  Q_of_nat (length l) * lo <= qsum l <= Q_of_nat (length l) * hi.
Proof.
  induction 1 as [|x l Hx _ IH].
  { change (Q_of_nat (length [])) with 0. simpl. lra. }
  simpl. rewrite Q_of_nat_S.
  assert (E1 : (Q_of_nat (length l) + 1) * lo ==
               Q_of_nat (length l) * lo + lo) by ring.
  assert (E2 : (Q_of_nat (length l) + 1) * hi ==
               Q_of_nat (length l) * hi + hi) by ring.
  rewrite E1, E2. lra.
Qed.

Lemma np_mean_bounds lo hi l :
  l <> [] -> Forall (fun x => lo <= x <= hi) l -> lo <= np_mean l <= hi.
Proof.
  intros Hne Hl. unfold np_mean. rewrite np_sum_qsum.
  assert (Hn : 0 < Q_of_nat (length l)).
  { apply Q_of_nat_pos. destruct l; [done|simpl; lia]. }
  destruct (qsum_bounds lo hi l Hl) as [H1 H2]. split.
  - apply Qle_shift_div_l; [exact Hn|]. rewrite Qmult_comm. exact H1.
  - apply Qle_shift_div_r; [exact Hn|]. rewrite Qmult_comm. exact H2.
Qed.

Lemma qsum_weighted_bounds lo hi xr mu :
  length mu = length xr ->
  Forall (fun x => lo <= x <= hi) xr -> Forall (fun m => 0 <= m) mu ->
  lo * qsum mu <= qsum (zip_with Qmult xr mu) <= hi * qsum mu.
Proof.
  revert mu. induction xr as [|x xr IH]; intros [|m mu] Hl Hx Hm;
    simpl in *; try discriminate; [lra|].
  inversion Hx as [|? ? Hx0 Hxr]; inversion Hm as [|? ? Hm0 Hmu]; subst.
  destruct (IH mu ltac:(lia) Hxr Hmu) as [IH1 IH2].
  assert (lo * m <= x * m) by (apply Qmult_le_compat_r; lra).
  assert (x * m <= hi * m) by (apply Qmult_le_compat_r; lra).
  assert (E1 : lo * (m + qsum mu) == lo * m + lo * qsum mu) by ring.
  assert (E2 : hi * (m + qsum mu) == hi * m + hi * qsum mu) by ring.
  rewrite E1, E2. lra.
Qed.

Lemma in_combine_snd {A B} (xs : list A) (ys : list B) y :
  length xs = length ys -> In y ys -> exists x, In (x, y) (combine xs ys).
Proof.
  revert ys. induction xs as [|x xs IH]; intros [|y' ys] Hl Hy;
    simpl in *; try discriminate; try contradiction.
  destruct Hy as [<- | Hy]; [eauto|].
  destruct (IH ys ltac:(lia) Hy) as [x' Hx']. eauto.
Qed.

Lemma defuzzify_in_bounds lo hi mu xr :
  xr <> [] -> length mu = length xr ->
  Forall (fun m => 0 <= m) mu -> Forall (fun x => lo <= x <= hi) xr ->
  lo <= defuzzify_centroid mu xr <= hi
  /\ lo <= defuzzify_bisector mu xr <= hi
  /\ lo <= defuzzify_mom mu xr <= hi.
Proof.
  intros Hne Hl Hm Hx.
  pose proof (np_mean_bounds lo hi xr Hne Hx) as Hmean.
  split; [|split].
  - unfold defuzzify_centroid.
    destruct (Qeq_bool (np_sum mu) 0) eqn:E; [exact Hmean|].
    apply Qeq_bool_false in E. rewrite np_sum_qsum in E |- *.
    rewrite np_sum_qsum.
    assert (Hs : 0 < qsum mu).
    { pose proof (qsum_nonneg mu Hm). apply Qle_lteq in H as [H|H]; [exact H|].
      exfalso. apply E. rewrite H. reflexivity. }
    destruct (qsum_weighted_bounds lo hi xr mu Hl Hx Hm) as [H1 H2]. split.
    + apply Qle_shift_div_l; [exact Hs|]. exact H1.
    + apply Qle_shift_div_r; [exact Hs|]. exact H2.
  - unfold defuzzify_bisector.
    destruct (Qeq_bool (np_sum mu) 0); [exact Hmean|]. cbv zeta.
    set (i := searchsorted _ _).
    assert (Hi : (i <= length xr)%nat).
    { destruct (searchsorted_spec (np_cumsum mu) (np_sum mu / 2))
        as [(H & _) | (H & _)]; fold i in H;
      unfold np_cumsum in H; rewrite length_cumsum_from in H; lia. }
    assert (Hlen : (0 < length xr)%nat) by (destruct xr; [done|simpl; lia]).
    rewrite List.Forall_forall in Hx. apply Hx, nth_In.
    destruct (Nat.leb_spec (length xr) i); lia.
  - unfold defuzzify_mom.
    destruct (Qeq_bool (list_max mu) 0); [exact Hmean|].
    apply np_mean_bounds.
    + assert (Hmu : mu <> []) by (destruct mu, xr; simpl in *; try done; lia).
      destruct (list_max_spec mu Hmu) as [Hin _].
      destruct (in_combine_snd xr mu (list_max mu) ltac:(lia) Hin) as [x Hxin].
      intros Hnil. apply map_eq_nil in Hnil.
      assert (Hf : In (x, list_max mu)
                     (List.filter (fun p => Qeq_bool (snd p) (list_max mu))
                        (combine xr mu))).
      { apply filter_In. split; [exact Hxin|]. apply Qeq_bool_iff. reflexivity. }
      rewrite Hnil in Hf. contradiction.
    + apply List.Forall_forall. intros x Hxm.
      apply in_map_iff in Hxm as ([x' m] & <- & Hp).
      apply filter_In in Hp as [Hp _]. apply in_combine_l in Hp.
      rewrite List.Forall_forall in Hx. apply Hx, Hp.
Qed.

Lemma linspace_bounds lo hi n :
  lo <= hi -> Forall (fun x => lo <= x <= hi) (linspace lo hi n).
Proof.
  intros Hle. destruct n as [|[|m]].
  - constructor.
  - simpl. constructor; [lra | constructor].
  - change (Forall (fun x => lo <= x <= hi)
      (map (fun i => Q_of_nat i * ((hi - lo) / Q_of_nat (S m)) + lo)
         (seq 0 (S m)) ++ [hi])).
    apply Forall_app. split; [|constructor; [lra | constructor]].
    apply List.Forall_map, List.Forall_forall. intros i Hi.
    apply in_seq in Hi.
    assert (Hm : 0 < Q_of_nat (S m)) by (apply Q_of_nat_pos; lia).
    set (step := (hi - lo) / Q_of_nat (S m)).
    assert (Hs : 0 <= step).
    { apply Qle_shift_div_l; [exact Hm|]. lra. }
    assert (Hi0 : 0 <= Q_of_nat i) by (apply (Q_of_nat_le 0); lia).
    assert (Him : Q_of_nat i <= Q_of_nat (S m)) by (apply Q_of_nat_le; lia).
    assert (H0 : 0 <= Q_of_nat i * step) by (apply Qmult_le_0_compat; assumption).
    assert (H1 : Q_of_nat i * step <= Q_of_nat (S m) * step)
      by (apply Qmult_le_compat_r; assumption).
    assert (H2 : Q_of_nat (S m) * step == hi - lo).
    { unfold step. apply Qmult_div_r. intros H. rewrite H in Hm.
      apply (Qlt_irrefl 0), Hm. }
    lra.
Qed.

Lemma truth_level_centroid_in_range e inputs out ov impl agg res :
  variables e !! out = Some ov -> min_val ov <= max_val ov -> (0 < res)%nat ->
  match inference_truth_level e inputs out impl agg res with
  | inr (mf, xr) => min_val ov <= defuzzify_centroid mf xr <= max_val ov
  | inl _ => False
  end.
Proof.
  intros Hov Hle Hres.
  pose proof (truth_level_curve_unit e inputs out impl agg res) as Hc.
  unfold inference_truth_level in *. rewrite Hov in *.
  destruct Hc as (H1 & H2 & H3).
  apply defuzzify_in_bounds.
  - intros Hnil. rewrite Hnil in H2. simpl in H2. lia.
  - congruence.
  - eapply Forall_impl; [exact H3|]. simpl. intros v Hv. apply Hv.
  - apply linspace_bounds. exact Hle.
Qed.

(** The three defuzzifiers return a value between the bounds of a
    non-empty grid for any non-negative curve of the grid's length; hence
    the main window's output ([_compute_output_with_membership], any
    mechanism, implication and aggregation) always lies in the output
    variable's range [min_val, max_val], even when no rule fires. *)
Theorem defuzzified_output_in_range e inputs out ov
  (Hov : variables e !! out = Some ov) (Hle : min_val ov <= max_val ov) :
  (forall lo hi mu xr,
     xr <> [] -> length mu = length xr ->
     Forall (fun m => 0 <= m) mu -> Forall (fun x => lo <= x <= hi) xr ->
     lo <= defuzzify_centroid mu xr <= hi
     /\ lo <= defuzzify_bisector mu xr <= hi
     /\ lo <= defuzzify_mom mu xr <= hi)
  /\ (forall k impl agg,
     match compute_output_with_membership e inputs out k impl agg with
     | inr (y, _, _) => min_val ov <= y <= max_val ov
     | inl _ => False
     end).
Proof.
  split; [apply defuzzify_in_bounds|].
  intros k impl agg. unfold compute_output_with_membership.
  rewrite !composition_truth_level.
  assert (H : forall impl',
    match with_centroid (inference_truth_level e inputs out impl' agg 1000) with
    | inr (y, _, _) => min_val ov <= y <= max_val ov
    | inl _ => False
    end).
  { intros impl'.
    pose proof (truth_level_centroid_in_range e inputs out ov impl' agg 1000
                  Hov Hle ltac:(lia)) as Hc.
    destruct (inference_truth_level e inputs out impl' agg 1000)
      as [err|[mf xr]]; [contradiction|exact Hc]. }
  destruct (_ && _); [|destruct (_ && _)]; apply H.
Qed.

Lemma defuzzified_output_in_range_witness :
  variables amount_engine !! "power" = Some power_var /\
  min_val power_var <= max_val power_var /\
  ((forall lo hi mu xr,
     xr <> [] -> length mu = length xr ->
     Forall (fun m => 0 <= m) mu -> Forall (fun x => lo <= x <= hi) xr ->
     lo <= defuzzify_centroid mu xr <= hi
     /\ lo <= defuzzify_bisector mu xr <= hi
     /\ lo <= defuzzify_mom mu xr <= hi)
  /\ (forall k impl agg,
     match compute_output_with_membership amount_engine (amount_inputs 6)
             "power" k impl agg with
     | inr (y, _, _) => min_val power_var <= y <= max_val power_var
     | inl _ => False
     end)).
Proof.
  assert (Hov : variables amount_engine !! "power" = Some power_var)
    by reflexivity.
  assert (Hle : min_val power_var <= max_val power_var)
    by (vm_compute; discriminate).
  split; [exact Hov|]. split; [exact Hle|].
  exact (defuzzified_output_in_range amount_engine (amount_inputs 6) "power"
           power_var Hov Hle).
Defined.

(** ** Rule order *)

Lemma Qlt_bool_true x y : Qlt_bool x y = true -> x < y.
Proof.
  unfold Qlt_bool. intros H. apply Qle_bool_false. destruct (Qle_bool y x); done.
Qed.

Lemma Qlt_bool_false' x y : Qlt_bool x y = false -> y <= x.
Proof.
  unfold Qlt_bool. intros H. apply Qle_bool_iff. destruct (Qle_bool y x); done.
Qed.

(** Split the innermost comparisons first and turn them into hypotheses. *)
Ltac q_sel :=
  repeat match goal with
    | |- context [Qlt_bool ?x ?y] =>
        lazymatch x with context [Qlt_bool _ _] => fail | _ =>
        lazymatch y with context [Qlt_bool _ _] => fail | _ =>
          let E := fresh "E" in
          destruct (Qlt_bool x y) eqn:E;
          [apply Qlt_bool_true in E | apply Qlt_bool_false' in E]
        end end
  end.

Lemma map_zip_with {A B C D} (f : C -> D) (g : A -> B -> C) l k :
  map f (zip_with g l k) = zip_with (fun a b => f (g a b)) l k.
Proof.
  revert k. induction l as [|a l IH]; intros [|b k]; simpl; f_equal; auto.
Qed.

Lemma aggregate_curves_op agg o r :
  aggregate_curves agg o r = zip_with (agg_op agg) o r.
Proof. destruct agg; simpl; [reflexivity | apply map_zip_with..]. Qed.

#[export] Instance qmin_proper : Proper (Qeq ==> Qeq ==> Qeq) qmin.
Proof. intros a a' Ha b b' Hb. unfold qmin. q_sel; lra. Qed.

#[export] Instance qmax_proper : Proper (Qeq ==> Qeq ==> Qeq) qmax.
Proof. intros a a' Ha b b' Hb. unfold qmax. q_sel; lra. Qed.

Lemma agg_op_proper agg x x' a : x == x' -> agg_op agg x a == agg_op agg x' a.
Proof. intros Hx. destruct agg; simpl; rewrite Hx; reflexivity. Qed.

Lemma qmin_one_id y : y <= 1 -> qmin 1 y == y.
Proof. intros H. unfold qmin. q_sel; lra. Qed.

Lemma probor_le_one x a : 0 <= x <= 1 -> 0 <= a <= 1 ->
  0 <= x + a - x * a <= 1.
Proof.
  intros Hx Ha.
  assert (0 <= a * (1 - x)) by (apply Qmult_le_0_compat; lra).
  assert (0 <= (1 - x) * (1 - a)) by (apply Qmult_le_0_compat; lra).
  assert (E1 : a * (1 - x) == a - x * a) by ring.
  assert (E2 : (1 - x) * (1 - a) == 1 - (x + a - x * a)) by ring.
  lra.
Qed.

Lemma agg_op_comm agg x a b :
  0 <= x <= 1 -> 0 <= a <= 1 -> 0 <= b <= 1 ->
  agg_op agg (agg_op agg x a) b == agg_op agg (agg_op agg x b) a.
Proof.
  intros Hx Ha Hb. destruct agg; simpl.
  - unfold qmax. q_sel; lra.
  - unfold qmin. q_sel; lra.
  - destruct (probor_le_one x a Hx Ha) as [Hu0 Hu].
    destruct (probor_le_one x b Hx Hb) as [Hw0 Hw].
    rewrite (qmin_one_id _ Hu), (qmin_one_id _ Hw).
    assert (Hs : x + a - x * a + b - (x + a - x * a) * b ==
                 x + b - x * b + a - (x + b - x * b) * a) by ring.
    rewrite Hs. reflexivity.
Qed.


Lemma Forall2_Qeq_refl l : Forall2 Qeq l l.
Proof. induction l; constructor; [reflexivity | assumption]. Qed.

Lemma Forall2_Qeq_trans l1 l2 l3 :
  Forall2 Qeq l1 l2 -> Forall2 Qeq l2 l3 -> Forall2 Qeq l1 l3.
Proof.
  intros H12. revert l3. induction H12 as [|a b l1 l2 Hab _ IH]; intros l3 H23;
    inversion H23; subst; constructor; [rewrite Hab; assumption | auto].
Qed.

Lemma zip_with_proper_l (g : Q -> Q -> Q)
  (Hg : forall x x' a, x == x' -> g x a == g x' a) acc acc' r :
  Forall2 Qeq acc acc' -> Forall2 Qeq (zip_with g acc r) (zip_with g acc' r).
Proof.
  intros H. revert r. induction H as [|x x' acc acc' Hx _ IH]; intros [|a r];
    simpl; constructor; auto.
Qed.

Lemma zip_with_comm_eq (P : Q -> Prop) (g : Q -> Q -> Q)
  (Hg : forall x a b, P x -> P a -> P b -> g (g x a) b == g (g x b) a)
  acc ra rb :
  Forall P acc -> Forall P ra -> Forall P rb ->
  length ra = length acc -> length rb = length acc ->
  Forall2 Qeq (zip_with g (zip_with g acc ra) rb)
              (zip_with g (zip_with g acc rb) ra).
Proof.
  intros Hacc. revert ra rb.
  induction Hacc as [|x acc Hx _ IH]; intros [|a ra] [|b rb] Ha Hb Hla Hlb;
    simpl in *; try discriminate; [constructor|].
  inversion Ha; inversion Hb; subst.
  constructor; [apply Hg; assumption | apply IH; auto].
Qed.

Lemma fold_left_perm_equiv {A B} (R : A -> A -> Prop) (I : A -> Prop)
  (f : A -> B -> A)
  (Hrefl : forall a, R a a)
  (Htrans : forall a b c, R a b -> R b c -> R a c)
  (Hinv : forall a b, I a -> I (f a b))
  (Hresp : forall a a' b, I a -> I a' -> R a a' -> R (f a b) (f a' b))
  (Hcomm : forall a b c, I a -> R (f (f a b) c) (f (f a c) b)) :
  forall l l', Permutation l l' -> forall a, I a ->
  R (fold_left f l a) (fold_left f l' a).
Proof.
  assert (Hfold : forall l a a', I a -> I a' -> R a a' ->
                  R (fold_left f l a) (fold_left f l a')).
  { induction l as [|b l IH]; intros a a' Ha Ha' Hr; simpl; [exact Hr|].
    apply IH; auto. }
  induction 1 as [|x l l' _ IH|x y l|l l' l'' _ IH1 _ IH2]; intros a Ha; simpl.
  - apply Hrefl.
  - apply IH, Hinv, Ha.
  - apply Hfold; auto.
  - eapply Htrans; [apply IH1, Ha | apply IH2, Ha].
Qed.

Lemma truth_level_step_shape e inputs out ov xr impl agg rule :
  exists o : option (list Q),
    (forall acc, truth_level_step e inputs out ov xr impl agg acc rule =
                 match o with None => acc
                 | Some ro => aggregate_curves agg acc ro end)
    /\ (forall ro, o = Some ro ->
          Forall (fun v => 0 <= v <= 1) ro /\ length ro = length xr).
Proof.
  unfold truth_level_step.
  destruct (decide _); [exists None; split; [reflexivity | discriminate]|].
  destruct (Qeq_bool _ 0); [exists None; split; [reflexivity | discriminate]|].
  destruct (terms ov !! result_term rule) as [fs|];
    [|exists None; split; [reflexivity | discriminate]].
  eexists (Some _). split; [reflexivity|]. intros ro [= <-]. split.
  - apply List.Forall_map, List.Forall_map, List.Forall_forall. intros x _.
    apply implication_unit; [apply evaluate_rule_conditions_unit|apply membership_unit].
  - rewrite !length_map. reflexivity.
Qed.

Lemma truth_level_fold_perm e inputs out ov xr impl agg rs rs' acc :
  Permutation rs rs' ->
  Forall (fun v => 0 <= v <= 1) acc -> length acc = length xr ->
  Forall2 Qeq
    (fold_left (truth_level_step e inputs out ov xr impl agg) rs acc)
    (fold_left (truth_level_step e inputs out ov xr impl agg) rs' acc).
Proof.
  intros Hp H1 H2.
  apply (fold_left_perm_equiv (Forall2 Qeq)
           (fun a => Forall (fun v => 0 <= v <= 1) a /\ length a = length xr));
    [apply Forall2_Qeq_refl | apply Forall2_Qeq_trans | | | | exact Hp | auto].
  - intros a b [Ha Hl]. apply truth_level_step_unit; assumption.
  - intros a a' b _ _ Hr.
    destruct (truth_level_step_shape e inputs out ov xr impl agg b)
      as ([ro|] & Hs & _); rewrite !Hs; [|exact Hr].
    rewrite !aggregate_curves_op. apply zip_with_proper_l; [|exact Hr].
    apply agg_op_proper.
  - intros a b c [Ha Hl].
    destruct (truth_level_step_shape e inputs out ov xr impl agg b)
      as ([rb|] & Hsb & Hrb);
    destruct (truth_level_step_shape e inputs out ov xr impl agg c)
      as ([rc|] & Hsc & Hrc);
      rewrite ?Hsb, ?Hsc, ?Hsb; try apply Forall2_Qeq_refl.
    destruct (Hrb rb eq_refl) as [Hb1 Hb2]. destruct (Hrc rc eq_refl) as [Hc1 Hc2].
    rewrite !aggregate_curves_op.
    apply (zip_with_comm_eq (fun v => 0 <= v <= 1)); auto; [|congruence..].
    intros x y z Hx Hy Hz. apply agg_op_comm; assumption.
Qed.

(** The order of the rules does not matter: both mechanisms give, for any
    permutation of the rule list, the same grid and the same output curve
    point by point, for every implication and aggregation (the clipping
    of [SUM] and [PROBOR] at 1 included). *)
Theorem rule_order_irrelevant e rs' inputs out agg res
  (Hperm : Permutation (rules e) rs') :
  (forall impl, curve_equiv (inference_truth_level e inputs out impl agg res)
                  (inference_truth_level (with_rules e rs') inputs out impl agg res))
  /\ (forall comp impl,
        curve_equiv (inference_composition e inputs out comp impl agg res)
          (inference_composition (with_rules e rs') inputs out comp impl agg res)).
Proof.
  assert (Ht : forall impl,
    curve_equiv (inference_truth_level e inputs out impl agg res)
      (inference_truth_level (with_rules e rs') inputs out impl agg res)).
  { intros impl. unfold inference_truth_level, curve_equiv. simpl.
    destruct (variables e !! out) as [ov|]; [|reflexivity].
    split; [|reflexivity].
    rewrite (fold_left_ext_pointwise _ _ rs' _
               (truth_level_step_with_rules _ _ _ _ _ _ _ _)).
    apply truth_level_fold_perm; [exact Hperm| |].
    - apply List.Forall_forall. intros v Hv. apply repeat_spec in Hv. subst. lra.
    - unfold np_zeros. rewrite repeat_length, linspace_length. reflexivity. }
  split; [exact Ht|]. intros comp impl. rewrite !composition_truth_level. apply Ht.
Qed.

Lemma rule_order_irrelevant_witness :
  Permutation (rules (with_rules amount_engine [amount_rule; tri_rule]))
    [tri_rule; amount_rule] /\
  ((forall impl, curve_equiv
      (inference_truth_level (with_rules amount_engine [amount_rule; tri_rule])
         (amount_inputs 6) "power" impl MAX 3)
      (inference_truth_level
         (with_rules (with_rules amount_engine [amount_rule; tri_rule])
            [tri_rule; amount_rule]) (amount_inputs 6) "power" impl MAX 3))
   /\ (forall comp impl, curve_equiv
      (inference_composition (with_rules amount_engine [amount_rule; tri_rule])
         (amount_inputs 6) "power" comp impl MAX 3)
      (inference_composition
         (with_rules (with_rules amount_engine [amount_rule; tri_rule])
            [tri_rule; amount_rule]) (amount_inputs 6) "power" comp impl MAX 3))).
Proof.
  assert (Hp : Permutation (rules (with_rules amount_engine [amount_rule; tri_rule]))
                 [tri_rule; amount_rule]) by (simpl; apply perm_swap).
  split; [exact Hp|].
  exact (rule_order_irrelevant _ _ (amount_inputs 6) "power" MAX 3 Hp).
Defined.

(** ** Terms of a parsed variable *)

Lemma fold_add_term_lookup term_defs v t :
  terms (fold_left (fun v '(tn, m) => add_term v tn m) term_defs v) !! t =
  match List.find (fun d => String.eqb d.1 t) (rev term_defs) with
  | Some (_, m) => Some {| fs_name := t; mf := m |}
  | None => terms v !! t
  end.
Proof.
  induction term_defs as [|[tn m] defs IH] using rev_ind; simpl; [reflexivity|].
  rewrite fold_left_app, rev_app_distr. simpl.
  rewrite add_term_terms.
  destruct (String.eqb_spec tn t) as [<-|Hne].
  - apply lookup_insert_eq.
  - rewrite lookup_insert_ne by congruence. exact IH.
Qed.

(** [_parse_variable]: the parsed variable keeps its name, and a term name
    is bound to the membership function of its last definition in the
    ["terms"] object (a later definition replaces an earlier one); a name
    without definition is not a term. *)
Theorem parse_variable_terms name lo hi term_defs t :
  var_name (parse_variable name lo hi term_defs) = name
  /\ terms (parse_variable name lo hi term_defs) !! t =
     match List.find (fun d => String.eqb d.1 t) (rev term_defs) with
     | Some (_, m) => Some {| fs_name := t; mf := m |}
     | None => None
     end.
Proof.
  split.
  - unfold parse_variable.
    change name with (var_name (new_variable name lo hi)) at 2.
    generalize (new_variable name lo hi).
    induction term_defs as [|[tn m] defs IH]; intros v; simpl; [reflexivity|].
    rewrite IH. unfold add_term, update_range_from_mf. simpl.
    destruct (Qlt_bool _ _); destruct (Qlt_bool _ _); reflexivity.
  - unfold parse_variable. rewrite fold_add_term_lookup.
    destruct (List.find _ _) as [[? ?]|]; reflexivity.
Qed.
